(** * A to-do list manager: shallow embedding of [app.py]

    The program is a Streamlit script.  Its logical core is the class
    [Task] (one to-do item) and the class [TaskManager] (an ordered list
    of tasks mirrored into [st.session_state]).  The embedding follows
    the source method by method:

    - Python values are dynamically typed, so the attributes of a task
      hold a [value] (here: [None], an [int] or a [str]);
    - a dictionary with string keys is a [gmap string value];
    - the effects of the code (reading the wall clock, reading and
      writing [st.session_state], mutating [manager.tasks], raising an
      exception) are threaded through a state-and-exception monad [M]
      whose state survives a raised exception, as it does in Python. *)

From stdpp Require Import base option list gmap strings pretty.
From Stdlib Require Import ZArith Floats Uint63.

Local Open Scope string_scope.
Local Open Scope Z_scope.

(** ** Values and exceptions *)

(** The Python values the model ranges over. *)
Inductive value : Type :=
| VNone
| VInt (n : Z)
| VStr (s : string).

#[global] Instance value_eq_dec : EqDecision value.
Proof. solve_decision. Defined.

#[global] Instance value_inhabited : Inhabited value := populate VNone.

(** [a == b] on these values. *)
Definition py_eq (a b : value) : bool := bool_decide (a = b).

(** [a <= b]: defined between two strings (code-point order) and between
    two integers; any other pair raises [TypeError] in Python, rendered
    here as [None]. *)
Definition py_le (a b : value) : option bool :=
  match a, b with
  | VStr x, VStr y => Some (String.leb x y)
  | VInt x, VInt y => Some (x <=? y)
  | _, _ => None
  end.

Inductive exn : Type :=
| KeyError (key : string)
| TypeError (msg : string)
| AttributeError (msg : string).

Inductive result (A : Type) : Type :=
| Ok (a : A)
| Raise (e : exn).
Arguments Ok {A} a.
Arguments Raise {A} e.

(** ** Task objects *)

(** The instance attributes set by [Task.__init__] are record fields.
    [shadowed] holds every further entry of the instance dictionary: an
    instance attribute that [setattr] created under the name of an
    attribute of the class (a method, say), which it then hides on that
    object. *)
Record Task : Type := mkTask {
  id : value;
  title : value;
  description : value;
  status : value;
  created_at : value;
  updated_at : value;
  shadowed : gmap string value
}.

#[global] Instance Task_eq_dec : EqDecision Task.
Proof. solve_decision. Defined.

Definition set_id (v : value) (t : Task) : Task :=
  mkTask v (title t) (description t) (status t) (created_at t) (updated_at t) (shadowed t).
Definition set_title (v : value) (t : Task) : Task :=
  mkTask (id t) v (description t) (status t) (created_at t) (updated_at t) (shadowed t).
Definition set_description (v : value) (t : Task) : Task :=
  mkTask (id t) (title t) v (status t) (created_at t) (updated_at t) (shadowed t).
Definition set_status (v : value) (t : Task) : Task :=
  mkTask (id t) (title t) (description t) v (created_at t) (updated_at t) (shadowed t).
Definition set_created_at (v : value) (t : Task) : Task :=
  mkTask (id t) (title t) (description t) (status t) v (updated_at t) (shadowed t).
Definition set_updated_at (v : value) (t : Task) : Task :=
  mkTask (id t) (title t) (description t) (status t) (created_at t) v (shadowed t).
Definition set_shadowed (m : gmap string value) (t : Task) : Task :=
  mkTask (id t) (title t) (description t) (status t) (created_at t) (updated_at t) m.

(** The same task without the instance attributes that hide methods. *)
Definition plain (t : Task) : Task := set_shadowed ∅ t.

(** Names bound in the body of [class Task]. *)
Definition class_attrs : list string :=
  ["__init__"; "_generate_id"; "to_dict"; "from_dict"].

Definition data_attrs : list string :=
  ["id"; "title"; "description"; "status"; "created_at"; "updated_at"].

(** The names that an instance of a class without [__slots__] has besides
    those of its class body: the ones inherited from [object] and the
    ones that the class statement adds (CPython 3.11). *)
Definition object_attrs : list string :=
  ["__class__"; "__delattr__"; "__dict__"; "__dir__"; "__doc__"; "__eq__";
   "__format__"; "__ge__"; "__getattribute__"; "__getstate__"; "__gt__";
   "__hash__"; "__init_subclass__"; "__le__"; "__lt__"; "__module__";
   "__ne__"; "__new__"; "__reduce__"; "__reduce_ex__"; "__repr__";
   "__setattr__"; "__sizeof__"; "__str__"; "__subclasshook__"; "__weakref__"].

(** [hasattr(task, key)] *)
Definition hasattr (task : Task) (key : string) : bool :=
  bool_decide (key ∈ data_attrs) || bool_decide (key ∈ class_attrs)
  || bool_decide (key ∈ object_attrs)
  || bool_decide (is_Some (shadowed task !! key)).

(** An assignment that ends in the instance dictionary. *)
Definition store (task : Task) (key : string) (v : value) : Task :=
  if String.eqb key "id" then set_id v task
  else if String.eqb key "title" then set_title v task
  else if String.eqb key "description" then set_description v task
  else if String.eqb key "status" then set_status v task
  else if String.eqb key "created_at" then set_created_at v task
  else if String.eqb key "updated_at" then set_updated_at v task
  else set_shadowed (<[key := v]> (shadowed task)) task.

(** The three names whose assignment does not reach the instance
    dictionary: [__class__] takes a class only and [__dict__] a
    dictionary only, which no value of the model is, and [__weakref__]
    cannot be written.  The first two raise [TypeError], the third
    [AttributeError]; of Python's message, which for the first two goes
    on to name the type of the value, the beginning is kept. *)
Definition refuses (key : string) : option exn :=
  if String.eqb key "__class__" then
    Some (TypeError "__class__ must be set to a class")
  else if String.eqb key "__dict__" then
    Some (TypeError "__dict__ must be set to a dictionary")
  else if String.eqb key "__weakref__" then
    Some (AttributeError "attribute '__weakref__' of 'Task' objects is not writable")
  else None.

(** [setattr(task, key, value)] *)
Definition setattr (task : Task) (key : string) (v : value) : result Task :=
  match refuses key with
  | Some e => Raise e
  | None => Ok (store task key v)
  end.

(** Keyword arguments none of which has a name that [setattr] refuses. *)
Definition gentle_kwargs (kwargs : list (string * value)) : Prop :=
  Forall (λ kv : string * value, refuses kv.1 = None) kwargs.

(** The parameters of [def update_task(self, task_id, **kwargs)].  A
    keyword argument with one of these names cannot be passed beside the
    receiver and the positional [task_id]: the call raises [TypeError]
    before the body runs. *)
Definition parameters : list string := ["self"; "task_id"].

(** Keyword arguments that a call of [update_task] binds to [kwargs]. *)
Definition bindable (kwargs : list (string * value)) : Prop :=
  Forall (λ kv : string * value, kv.1 ∉ parameters) kwargs.



(** ** The state the program runs in *)

(** [self_tasks] is the attribute [tasks] of the one [TaskManager] object
    of a script run (the global [manager]); [session_tasks] is
    [st.session_state.tasks], [None] while the key is absent.  The wall
    clock is an oracle: [clock n] is the string that the [n]-th evaluation
    of [datetime.now().isoformat()] returns, and [now_calls] counts the
    evaluations made so far. *)
Record State : Type := mkState {
  self_tasks : list Task;
  session_tasks : option (list (gmap string value));
  clock : nat → string;
  now_calls : nat
}.

Definition M (A : Type) : Type := State → result A * State.

#[global] Instance M_ret : MRet M := λ A a s, (Ok a, s).
#[global] Instance M_bind : MBind M := λ A B f c s,
  match c s with
  | (Ok a, s') => f a s'
  | (Raise e, s') => (Raise e, s')
  end.

Definition raise {A : Type} (e : exn) : M A := λ s, (Raise e, s).
Definition gets {A : Type} (f : State → A) : M A := λ s, (Ok (f s), s).
Definition modify (f : State → State) : M unit := λ s, (Ok tt, f s).

Definition put_self_tasks (ts : list Task) (s : State) : State :=
  mkState ts (session_tasks s) (clock s) (now_calls s).
Definition put_session_tasks (ds : list (gmap string value)) (s : State) : State :=
  mkState (self_tasks s) (Some ds) (clock s) (now_calls s).
Definition tick (s : State) : State :=
  mkState (self_tasks s) (session_tasks s) (clock s) (S (now_calls s)).

(** [datetime.now().isoformat()] *)
Definition now_isoformat : M string :=
  λ s, (Ok (clock s (now_calls s)), tick s).

(** A list comprehension [[f(x) for x in xs]] whose body has effects. *)
Fixpoint comprehension {A B : Type} (f : A → M B) (xs : list A) : M (list B) :=
  match xs with
  | [] => mret []
  | x :: xs' => y ← f x; ys ← comprehension f xs'; mret (y :: ys)
  end.

(** ** class Task *)

Module Task.

(** [len(st.session_state.get('tasks', [])) + 1] *)
Definition _generate_id : M value :=
  gets (λ s, VInt (Z.of_nat (length (default [] (session_tasks s))) + 1)).

(** [Task(title, description, status)] *)
Definition __init__ (title description status : value) : M Task :=
  i ← _generate_id;
  c ← now_isoformat;
  u ← now_isoformat;
  mret (mkTask i title description status (VStr c) (VStr u) ∅).

(** The body of the method [to_dict]. *)
Definition to_dict (self : Task) : gmap string value :=
  list_to_map
    [("id", id self); ("title", title self); ("description", description self);
     ("status", status self); ("created_at", created_at self);
     ("updated_at", updated_at self)].

(** [data[key]] *)
Definition getitem (data : gmap string value) (key : string) : M value :=
  match data !! key with
  | Some v => mret v
  | None => raise (KeyError key)
  end.

(** [Task.from_dict(data)] *)
Definition from_dict (data : gmap string value) : M Task :=
  t ← getitem data "title";
  d ← getitem data "description";
  st ← getitem data "status";
  task ← __init__ t d st;
  i ← getitem data "id";
  c ← getitem data "created_at";
  u ← getitem data "updated_at";
  mret (set_updated_at u (set_created_at c (set_id i task))).

End Task.

(** The call [task.to_dict()]: attribute lookup finds an instance attribute
    before the method of the class, and a value of the model is not
    callable. *)
Definition call_to_dict (task : Task) : M (gmap string value) :=
  match shadowed task !! "to_dict" with
  | Some _ => raise (TypeError "object is not callable")
  | None => mret (Task.to_dict task)
  end.

(** ** class TaskManager *)

(** A task object is identified by its position in [manager.tasks]: the
    list holds each object once, every element being built by a constructor
    call of its own.  The scan of [get_task_by_id] is therefore kept
    together with the position at which it stops. *)
Fixpoint scan (task_id : value) (tasks : list Task) : option (nat * Task) :=
  match tasks with
  | [] => None
  | task :: rest =>
      if py_eq (id task) task_id then Some (0%nat, task)
      else prod_map S (λ t, t) <$> scan task_id rest
  end.

(** Statistics: [completed / total * 100] is a float, the [else] branch the
    integer [0]. *)
Inductive number : Type :=
| Int (n : Z)
| Float (x : float).

Record Stats : Type := mkStats {
  total : nat;
  pending : nat;
  completed : nat;
  completion_rate : number
}.

(** An [int] (a length, below [2^53]) as a float operand. *)
Definition float_of_nat (n : nat) : float :=
  PrimFloat.of_uint63 (Uint63.of_Z (Z.of_nat n)).

Module TaskManager.

(** [_load_tasks] *)
Definition _load_tasks : M unit :=
  absent ← gets (λ s, bool_decide (session_tasks s = None));
  (if absent : bool then modify (put_session_tasks []) else mret tt);;
  ds ← gets (λ s, default [] (session_tasks s));
  ts ← comprehension Task.from_dict ds;
  modify (put_self_tasks ts).

(** [TaskManager()] *)
Definition __init__ : M unit :=
  modify (put_self_tasks []);;
  _load_tasks.

(** [_save_tasks] *)
Definition _save_tasks : M unit :=
  ts ← gets self_tasks;
  ds ← comprehension call_to_dict ts;
  modify (put_session_tasks ds).

(** [add_task(title, description)] *)
Definition add_task (title description : value) : M Task :=
  task ← Task.__init__ title description (VStr "pending");
  modify (λ s, put_self_tasks (self_tasks s ++ [task]) s);;
  _save_tasks;;
  mret task.

(** [get_task_by_id(task_id)] *)
Definition get_task_by_id (task_id : value) : M (option Task) :=
  gets (λ s, snd <$> scan task_id (self_tasks s)).

(** The loop [for key, value in kwargs.items(): if hasattr(task, key):
    setattr(task, key, value)] on the object [task]: the object as the
    loop leaves it, and the exception if an assignment raised one.  The
    assignments made before the exception stay. *)
Fixpoint assign_kwargs (kwargs : list (string * value)) (task : Task)
    : Task * option exn :=
  match kwargs with
  | [] => (task, None)
  | kv :: rest =>
      if hasattr task kv.1 then
        match setattr task kv.1 kv.2 with
        | Ok task' => assign_kwargs rest task'
        | Raise e => (task, Some e)
        end
      else assign_kwargs rest task
  end.

(** What the loop does when no assignment raises. *)
Definition apply_kwargs (kwargs : list (string * value)) (task : Task) : Task :=
  foldl (λ task kv, if hasattr task kv.1 then store task kv.1 kv.2 else task)
        task kwargs.

(** In-place mutation of the object at position [i]. *)
Definition mutate (i : nat) (f : Task → Task) : M unit :=
  modify (λ s, put_self_tasks (alter f i (self_tasks s)) s).

(** The call [self.update_task(task_id, **kwargs)]: the arguments are
    bound to the parameters, then the body runs.  [found] is the result
    of [self.get_task_by_id(task_id)] with the position of the object; a
    task object is always truthy, so [if task:] asks whether one was
    found. *)
Definition update_task (task_id : value) (kwargs : list (string * value)) : M bool :=
  if bool_decide (bindable kwargs) then
    found ← gets (λ s, scan task_id (self_tasks s));
    match found with
    | Some (i, task) =>
        let (task', raised) := assign_kwargs kwargs task in
        mutate i (λ _, task');;
        match raised with
        | Some e => raise e
        | None =>
            now ← now_isoformat;
            mutate i (set_updated_at (VStr now));;
            _save_tasks;;
            mret true
        end
    | None => mret false
    end
  else raise (TypeError "got multiple values for argument").

(** [delete_task(task_id)].  [self.tasks.remove(task)] removes the first
    element that is the object [task], which is the one at the position
    where the scan found it. *)
Definition delete_task (task_id : value) : M bool :=
  found ← gets (λ s, scan task_id (self_tasks s));
  match found with
  | Some (i, _) =>
      modify (λ s, put_self_tasks (delete i (self_tasks s)) s);;
      _save_tasks;;
      mret true
  | None => mret false
  end.

(** [get_all_tasks(status_filter)]; [None] and the empty string are the
    falsy filters. *)
Definition get_all_tasks (status_filter : option string) : M (list Task) :=
  match status_filter with
  | None | Some "" => gets self_tasks
  | Some f =>
      gets (λ s, filter (λ task, py_eq (status task) (VStr f) = true) (self_tasks s))
  end.

(** [get_stats()] *)
Definition get_stats : M Stats :=
  ts ← gets self_tasks;
  let total := length ts in
  let pending := length (filter (λ t, py_eq (status t) (VStr "pending") = true) ts) in
  let completed := length (filter (λ t, py_eq (status t) (VStr "completed") = true) ts) in
  mret (mkStats total pending completed
          (if bool_decide (0 < total)%nat
           then Float (float_of_nat completed / float_of_nat total * 100)%float
           else Int 0)).

End TaskManager.

(** ** The "Add Task" button of the page *)

Inductive message : Type :=
| st_success (text : string)
| st_error (text : string).

(** The body of [if st.button("Add Task"):], run with the contents of the
    two input widgets. *)
Definition add_task_button (title description : string) : M message :=
  if bool_decide (title ≠ "") then
    TaskManager.add_task (VStr title) (VStr description);;
    mret (st_success ("Task '" +:+ title +:+ "' added!"))
  else
    mret (st_error "Title cannot be empty!").


(** ** Calls of the interface, and the states they reach *)

(** One call of the [TaskManager] interface; [Construct] is the statement
    [manager = TaskManager()] that every run of the script starts with. *)
Inductive call : Type :=
| Construct
| Add (title description : value)
| Get (task_id : value)
| Update (task_id : value) (kwargs : list (string * value))
| Delete (task_id : value)
| GetAll (status_filter : option string)
| GetStats.

(** The effect of a call on the state, its return value dropped. *)
Definition exec (c : call) : M unit :=
  match c with
  | Construct => TaskManager.__init__
  | Add t d => TaskManager.add_task t d;; mret tt
  | Get i => TaskManager.get_task_by_id i;; mret tt
  | Update i kwargs => TaskManager.update_task i kwargs;; mret tt
  | Delete i => TaskManager.delete_task i;; mret tt
  | GetAll f => TaskManager.get_all_tasks f;; mret tt
  | GetStats => TaskManager.get_stats;; mret tt
  end.

(** The states of a session: it starts without a snapshot, and then any
    number of calls taken from [allowed] run, whether they return or
    raise. *)
Inductive reachable (allowed : call → Prop) : State → Prop :=
| reach_new (clk : nat → string) (n : nat) :
    reachable allowed (mkState [] None clk n)
| reach_step (s s' : State) (c : call) (r : result unit) :
    reachable allowed s → allowed c → exec c s = (r, s') →
    reachable allowed s'.

(** ** Predicates used by the statements *)

(** The snapshot is the serialized form of the whole collection. *)
Definition snapshot_ok (s : State) : Prop :=
  session_tasks s = Some (map Task.to_dict (self_tasks s)).

(** The method [to_dict] of the task is not hidden by an instance attribute. *)
Definition serializable (t : Task) : Prop := shadowed t !! "to_dict" = None.

(** Successive readings of the clock never decrease. *)
Definition monotone (clk : nat → string) : Prop :=
  ∀ i j : nat, (i ≤ j)%nat → String.leb (clk i) (clk j) = true.

(** The invariants of the data model, as the specification lists them. *)
Definition status_ok (t : Task) : Prop :=
  status t = VStr "pending" ∨ status t = VStr "completed".

Definition timestamps_ok (t : Task) : Prop :=
  py_le (created_at t) (updated_at t) = Some true.


(** [getattr(task, key)] for the attributes of the instance dictionary. *)
Definition getattr (task : Task) (key : string) : option value :=
  if String.eqb key "id" then Some (id task)
  else if String.eqb key "title" then Some (title task)
  else if String.eqb key "description" then Some (description task)
  else if String.eqb key "status" then Some (status task)
  else if String.eqb key "created_at" then Some (created_at task)
  else if String.eqb key "updated_at" then Some (updated_at task)
  else shadowed task !! key.

(** The value that keyword arguments give for a name: the last one. *)
Definition assigned (key : string) (kwargs : list (string * value)) : option value :=
  foldl (λ acc kv, if String.eqb kv.1 key then Some kv.2 else acc) None kwargs.

(** The number of tasks with a given status, by recursion on the list. *)
Fixpoint count_status (st : string) (ts : list Task) : nat :=
  match ts with
  | [] => 0
  | t :: ts' =>
      (if bool_decide (status t = VStr st) then 1 else 0) + count_status st ts'
  end%nat.

(** A clock that advances by one microsecond at every reading (for the
    first nine readings, which is as far as the examples go), and the
    states of a session that the examples below run through. *)
Definition microseconds (n : nat) : string :=
  "2024-01-01T00:00:00.00000" +:+ pretty (S n).

Definition new_session : State := mkState [] None microseconds 0.

Definition after (cs : list call) (s : State) : State :=
  foldl (λ s c, (exec c s).2) s cs.

#[global] Instance serializable_dec (t : Task) : Decision (serializable t).
Proof. unfold serializable. apply _. Defined.

(** ** Intermediate states of the calls *)

(** The state after [n] further readings of the clock. *)
Definition ticks (n : nat) (s : State) : State :=
  mkState (self_tasks s) (session_tasks s) (clock s) (n + now_calls s).

(** Every mutating call changes [manager.tasks] and ends with
    [_save_tasks]: [finish a] turns the outcome of that save into the
    outcome of the call that returns [a]. *)
Definition finish {A : Type} (a : A) (saved : result unit * State) : result A * State :=
  match saved with
  | (Ok _, s) => (Ok a, s)
  | (Raise e, s) => (Raise e, s)
  end.

(** The task that [Task(title, description)] builds in the state [s]. *)
Definition new_task (ttl descr : value) (s : State) : Task :=
  mkTask (VInt (Z.of_nat (length (default [] (session_tasks s))) + 1))
         ttl descr (VStr "pending")
         (VStr (clock s (now_calls s))) (VStr (clock s (S (now_calls s)))) ∅.

(** What [update_task] does to the task it found, in the state [s]. *)
Definition refresh (kwargs : list (string * value)) (s : State) (t : Task) : Task :=
  set_updated_at (VStr (clock s (now_calls s))) (TaskManager.apply_kwargs kwargs t).

(** ** Invariants *)

(** [holds P s]: the property [P], which may refer to the clock and to the
    number of readings made so far, is true of every task of the
    collection and of every task the snapshot was written from. *)
Definition holds (P : (nat → string) → nat → Task → Prop) (s : State) : Prop :=
  Forall (P (clock s) (now_calls s)) (self_tasks s)
  ∧ ∃ ts : list Task,
      default [] (session_tasks s) = map Task.to_dict ts
      ∧ Forall (P (clock s) (now_calls s)) ts.

(** [updated_at] is one of the first [n] readings of the clock. *)
Definition stamped (clk : nat → string) (n : nat) (t : Task) : Prop :=
  ∃ j : nat, (j < n)%nat ∧ updated_at t = VStr (clk j).

(** The calls whose updates pass no name that [setattr] refuses. *)
Definition gentle (c : call) : Prop :=
  match c with
  | Update _ kwargs => gentle_kwargs kwargs
  | _ => True
  end.

(** The updates that leave [created_at] alone, set [status], if at all,
    to one of its two values, and pass no name that [setattr] refuses. *)
Definition disciplined (c : call) : Prop :=
  match c with
  | Update _ kwargs =>
      Forall (λ kv : string * value,
                kv.1 ≠ "created_at"
                ∧ (kv.1 = "status" → kv.2 = VStr "pending" ∨ kv.2 = VStr "completed")
                ∧ refuses kv.1 = None)
             kwargs
  | _ => True
  end.

(** The status is one of the two values, and [created_at] and
    [updated_at] are readings of the clock, the first not later than the
    second. *)
Definition well_kept (clk : nat → string) (n : nat) (t : Task) : Prop :=
  status_ok t
  ∧ ∃ i j : nat, (i ≤ j)%nat ∧ (j < n)%nat
      ∧ created_at t = VStr (clk i) ∧ updated_at t = VStr (clk j).

(** ** Sessions used as examples *)

(** A session in which an id is given out a second time: two tasks are
    added, the first one is deleted, a third one is added. *)
Definition reissued : State :=
  after [Construct; Add (VStr "a") (VStr ""); Add (VStr "b") (VStr "");
         Delete (VInt 1); Add (VStr "c") (VStr "")] new_session.

(** A session whose clock stands still. *)
Definition still_session : State :=
  mkState [] None (λ _, "2024-01-01T00:00:00") 0.



(** ** The other widgets of the page *)

(** The keyword arguments that the checkbox of a listed task is created
    with: [{"status": "completed" if not task.status == "completed" else
    "pending"}]. *)
Definition checkbox_kwargs (task : Task) : list (string * value) :=
  [("status",
    if negb (py_eq (status task) (VStr "completed"))
    then VStr "completed" else VStr "pending")].

(** The callback of that checkbox: [on_change=manager.update_task] with
    [args=(task.id,)] and the keyword arguments above. *)
Definition checkbox_on_change (task : Task) : M bool :=
  TaskManager.update_task (id task) (checkbox_kwargs task).

(** The rows handed to the data frame of the export:
    [[t.to_dict() for t in tasks]], with [tasks = manager.get_all_tasks()]. *)
Definition export_rows : M (list (gmap string value)) :=
  tasks ← TaskManager.get_all_tasks None;
  comprehension call_to_dict tasks.

(** ** Further predicates on states and calls *)

(** The records of the snapshot (none while the key is absent) are the
    serialized tasks of the collection. *)
Definition mirrored (s : State) : Prop :=
  default [] (session_tasks s) = map Task.to_dict (self_tasks s).

(** The snapshot and the collection agree and every task can be
    serialized. *)
Definition settled (s : State) : Prop :=
  mirrored s ∧ Forall serializable (self_tasks s).

(** The calls whose keyword arguments can be bound and assign neither
    the name [to_dict] nor a name that [setattr] refuses. *)
Definition safe (c : call) : Prop :=
  match c with
  | Update _ kwargs =>
      ("to_dict" ∉ kwargs.*1) ∧ gentle_kwargs kwargs ∧ bindable kwargs
  | _ => True
  end.

(** The calls that neither delete a task nor assign [id], [to_dict] or a
    name that [setattr] refuses. *)
Definition keeps_ids (c : call) : Prop :=
  match c with
  | Delete _ => False
  | Update _ kwargs =>
      ("to_dict" ∉ kwargs.*1) ∧ ("id" ∉ kwargs.*1) ∧ gentle_kwargs kwargs
  | _ => True
  end.


(** The calls that the page makes: its updates are those of a checkbox. *)
Definition page_call (c : call) : Prop :=
  match c with
  | Update _ kwargs => ∃ task : Task, kwargs = checkbox_kwargs task
  | _ => True
  end.

(** The ids [1], [2], ..., [n]. *)
Definition first_ids (n : nat) : list value :=
  (λ k : nat, VInt (Z.of_nat k)) <$> seq 1 n.

(** Every record of the list has the six keys. *)
Definition complete (ds : list (gmap string value)) : Prop :=
  Forall (λ d : gmap string value, Forall (λ k, is_Some (d !! k)) data_attrs) ds.

(** The collection that a call leaves when it returns. *)
Definition effect (c : call) (s : State) : list Task :=
  match c with
  | Construct => map plain (self_tasks s)
  | Add ttl descr => self_tasks s ++ [new_task ttl descr s]
  | Update i kwargs =>
      match scan i (self_tasks s) with
      | Some (k, _) => alter (refresh kwargs s) k (self_tasks s)
      | None => self_tasks s
      end
  | Delete i =>
      match scan i (self_tasks s) with
      | Some (k, _) => delete k (self_tasks s)
      | None => self_tasks s
      end
  | Get _ | GetAll _ | GetStats => self_tasks s
  end.

(** A session with two tasks. *)
Definition two_tasks : State :=
  after [Construct; Add (VStr "Buy milk") (VStr ""); Add (VStr "Write report") (VStr "x")]
        new_session.


(** * Properties *)

(** ** Running the monad *)

Lemma run_bind {A B : Type} (c : M A) (f : A → M B) (s : State) :
  (c ≫= f) s =
  match c s with
  | (Ok a, s') => f a s'
  | (Raise e, s') => (Raise e, s')
  end.
Proof. reflexivity. Qed.

Lemma run_ret {A : Type} (a : A) (s : State) : (mret a : M A) s = (Ok a, s).
Proof. reflexivity. Qed.

Ltac run :=
  repeat (rewrite ?run_bind, ?run_ret;
          cbn [gets modify raise now_isoformat fst snd]).

(** ** Serialization of one task *)

Lemma to_dict_lookup (t : Task) :
  Task.to_dict t !! "id" = Some (id t)
  ∧ Task.to_dict t !! "title" = Some (title t)
  ∧ Task.to_dict t !! "description" = Some (description t)
  ∧ Task.to_dict t !! "status" = Some (status t)
  ∧ Task.to_dict t !! "created_at" = Some (created_at t)
  ∧ Task.to_dict t !! "updated_at" = Some (updated_at t).
Proof. unfold Task.to_dict. cbn [list_to_map foldr fst snd]. repeat split; by simplify_map_eq. Qed.

Lemma from_dict_to_dict (t : Task) (s : State) :
  Task.from_dict (Task.to_dict t) s = (Ok (plain t), tick (tick s)).
Proof.
  destruct (to_dict_lookup t) as (Hi & Ht & Hd & Hs & Hc & Hu).
  unfold Task.from_dict, Task.getitem.
  rewrite Hi, Ht, Hd, Hs, Hc, Hu.
  destruct t; reflexivity.
Qed.

(** C7. Deserializing the serialization of a task gives a task with the
    same [id], [title], [description], [status], [created_at] and
    [updated_at]: nothing is generated anew. *)
Theorem roundtrip_field_for_field (t : Task) (s : State) :
  ∃ (t' : Task) (s' : State),
    Task.from_dict (Task.to_dict t) s = (Ok t', s')
    ∧ id t' = id t ∧ title t' = title t ∧ description t' = description t
    ∧ status t' = status t ∧ created_at t' = created_at t
    ∧ updated_at t' = updated_at t
    ∧ Task.to_dict t' = Task.to_dict t.
Proof.
  exists (plain t), (tick (tick s)).
  split; [apply from_dict_to_dict|]. destruct t; repeat split; reflexivity.
Qed.

Lemma missing_key_not_all (data : gmap string value) (k : string) :
  k ∈ data_attrs → data !! k = None →
  ¬ Forall (λ k, is_Some (data !! k)) data_attrs.
Proof.
  intros Hk Hnone Hall. rewrite Forall_forall in Hall.
  destruct (Hall k Hk) as [v Hv]. congruence.
Qed.

Ltac key_missing H st :=
  split;
  [split;
   [intros (? & ? & Hok); discriminate Hok
   |intros Hall; exfalso; refine (missing_key_not_all _ _ _ H Hall);
    unfold data_attrs; set_solver]
  |intros _ _ _; eexists _, st; refine (conj _ (conj H eq_refl));
   unfold data_attrs; set_solver].

(** C10. [Task.from_dict] returns a task exactly when the record has the
    six keys [id], [title], [description], [status], [created_at] and
    [updated_at]; when one of them is missing it raises [KeyError] for a
    missing key. *)
Theorem from_dict_partial (data : gmap string value) (s : State) :
  ((∃ (t : Task) (s' : State), Task.from_dict data s = (Ok t, s'))
   ↔ Forall (λ k, is_Some (data !! k)) data_attrs)
  ∧ (∀ k : string, k ∈ data_attrs → data !! k = None →
     ∃ (k' : string) (s' : State),
       k' ∈ data_attrs ∧ data !! k' = None
       ∧ Task.from_dict data s = (Raise (KeyError k'), s')).
Proof.
  unfold Task.from_dict, Task.getitem.
  destruct (data !! "title") as [vt|] eqn:Ht; [|key_missing Ht s].
  destruct (data !! "description") as [vd|] eqn:Hd; [|key_missing Hd s].
  destruct (data !! "status") as [vs|] eqn:Hs; [|key_missing Hs s].
  destruct (data !! "id") as [vi|] eqn:Hi; [|key_missing Hi (tick (tick s))].
  destruct (data !! "created_at") as [vc|] eqn:Hc; [|key_missing Hc (tick (tick s))].
  destruct (data !! "updated_at") as [vu|] eqn:Hu; [|key_missing Hu (tick (tick s))].
  split.
  - split; [intros _; unfold data_attrs; repeat constructor; eauto|intros _; eauto].
  - intros k Hk Hnone. exfalso. unfold data_attrs in Hk.
    repeat (apply elem_of_cons in Hk as [->|Hk]; [congruence|]).
    by apply elem_of_nil in Hk.
Qed.

(** ** The guard of the "Add Task" button *)

(** C1, as the code has it.  The guard against an empty title is in the
    "Add Task" handler of the page: with an empty title it reports the
    error "Title cannot be empty!" and does nothing else, so that no task
    is constructed (the clock is not read) and the collection and the
    session snapshot stay as they were. *)
Theorem empty_title_rejected (description : string) (s : State) :
  add_task_button "" description s = (Ok (st_error "Title cannot be empty!"), s).
Proof. reflexivity. Qed.

(** C1, as it was stated: [add_task] itself does not look at the title.
    Called with an empty title it constructs the task, appends it to the
    collection and writes the snapshot. *)
Lemma add_task_accepts_empty_title :
  ∃ (t : Task) (s' : State),
    TaskManager.add_task (VStr "") (VStr "x") (after [Construct] new_session)
    = (Ok t, s')
    ∧ title t = VStr ""
    ∧ self_tasks (after [Construct] new_session) = []
    ∧ self_tasks s' = [t]
    ∧ session_tasks s' = Some [Task.to_dict t].
Proof. vm_compute. eexists _, _. repeat split. Qed.

(** The guard is the handler's: with any other title it calls [add_task]. *)
Lemma nonempty_title_added (title description : string) (s : State) :
  title ≠ "" →
  (add_task_button title description s).2
  = (TaskManager.add_task (VStr title) (VStr description) s).2.
Proof.
  intros Hne. unfold add_task_button. rewrite bool_decide_eq_true_2 by done.
  rewrite run_bind. by destruct (TaskManager.add_task _ _ s) as [[?|?] ?].
Qed.

(** ** Statistics *)

Lemma count_status_filter (st : string) (ts : list Task) :
  length (filter (λ t, py_eq (status t) (VStr st) = true) ts) = count_status st ts.
Proof.
  induction ts as [|t ts IH]; [reflexivity|].
  cbn [count_status]. destruct (decide (status t = VStr st)) as [Heq|Hne].
  - rewrite filter_cons_True by (unfold py_eq; by rewrite bool_decide_eq_true_2).
    rewrite bool_decide_eq_true_2 by done. cbn [length]. by rewrite IH.
  - rewrite filter_cons_False by (unfold py_eq; by rewrite bool_decide_eq_false_2).
    rewrite bool_decide_eq_false_2 by done. by rewrite IH.
Qed.

(** C8. [get_stats] reads the current collection and changes nothing;
    [total] is the number of tasks, [pending] and [completed] the numbers
    of tasks with these statuses, and [completion_rate] is the float
    [completed / total * 100] when there is a task and the integer [0]
    when there is none, in which case all four values are zero. *)
Theorem get_stats_spec (s : State) :
  ∃ st : Stats,
    TaskManager.get_stats s = (Ok st, s)
    ∧ total st = length (self_tasks s)
    ∧ pending st = count_status "pending" (self_tasks s)
    ∧ completed st = count_status "completed" (self_tasks s)
    ∧ completion_rate st =
        match total st with
        | O => Int 0
        | S _ => Float (float_of_nat (completed st) / float_of_nat (total st) * 100)%float
        end
    ∧ (self_tasks s = [] → st = mkStats 0 0 0 (Int 0)).
Proof.
  eexists. split; [reflexivity|]. cbn [total pending completed completion_rate].
  rewrite !count_status_filter. repeat split.
  - destruct (self_tasks s); reflexivity.
  - intros ->. reflexivity.
Qed.

(** Two tasks, one of them completed: half of the work is done. *)
Example get_stats_two_tasks :
  (TaskManager.get_stats
     (after [Construct; Add (VStr "Buy milk") (VStr ""); Add (VStr "Write report") (VStr "");
             Update (VInt 1) [("status", VStr "completed")]] new_session)).1
  = Ok (mkStats 2 1 1 (Float 50)).
Proof. vm_compute. reflexivity. Qed.

(** ** Looking a task up by its id *)

Lemma scan_Some (task_id : value) (ts : list Task) (i : nat) (t : Task) :
  scan task_id ts = Some (i, t) ↔
  ts !! i = Some t ∧ id t = task_id
  ∧ ∀ (j : nat) (u : Task), ts !! j = Some u → (j < i)%nat → id u ≠ task_id.
Proof.
  revert i. induction ts as [|x ts IH]; intros i; cbn [scan].
  - split; [discriminate|]. intros (H & _). discriminate H.
  - unfold py_eq. case_bool_decide as Hx.
    + split.
      * intros [= <- <-]. split; [done|]. split; [done|]. intros j u _ Hj. lia.
      * intros (Hi & Ht & Hfirst). destruct i as [|i]; [by simplify_eq/=|].
        exfalso. by apply (Hfirst 0%nat x); [|lia|].
    + rewrite fmap_Some. split.
      * intros ([k u] & Hscan & [= -> ->]). apply IH in Hscan as (Hk & Hu & Hfirst).
        split; [done|]. split; [done|]. intros [|j] v Hv Hj.
        -- by simplify_eq/=.
        -- apply (Hfirst j); [done|lia].
      * intros (Hi & Ht & Hfirst). destruct i as [|i]; [by simplify_eq/=|].
        exists (i, t). split; [|done]. apply IH. split; [done|]. split; [done|].
        intros j v Hv Hj. apply (Hfirst (S j)); [done|lia].
Qed.

Lemma scan_None (task_id : value) (ts : list Task) :
  scan task_id ts = None ↔ Forall (λ t, id t ≠ task_id) ts.
Proof.
  induction ts as [|x ts IH]; cbn [scan]; [by split; [constructor|]|].
  unfold py_eq. case_bool_decide as Hx.
  - split; [discriminate|]. intros H. by inversion H.
  - rewrite Forall_cons, <- IH. destruct (scan task_id ts) as [[]|]; cbn.
    + split; [discriminate|]. intros [_ [=]].
    + by split.
Qed.

(** X19. With pairwise different ids, looking up the id of a task of the
    collection returns that task. *)
Lemma get_task_by_id_unique (s : State) (t : Task) :
  NoDup (id <$> self_tasks s) → t ∈ self_tasks s →
  TaskManager.get_task_by_id (id t) s = (Ok (Some t), s).
Proof.
  intros Hnd Hin. unfold TaskManager.get_task_by_id, gets. do 2 f_equal.
  apply list_elem_of_lookup in Hin as [i Hi].
  destruct (scan (id t) (self_tasks s)) as [[j u]|] eqn:Hscan.
  - apply scan_Some in Hscan as (Hj & Hu & _). cbn. f_equal.
    assert (j = i) as ->; [|congruence].
    eapply NoDup_lookup; [exact Hnd| |].
    + rewrite list_lookup_fmap, Hj. cbn. by rewrite Hu.
    + by rewrite list_lookup_fmap, Hi.
  - apply scan_None in Hscan. rewrite Forall_forall in Hscan.
    exfalso. eapply Hscan; [|done]. eapply list_elem_of_lookup_2; done.
Qed.

(** C2. After add, add, delete(1), add the collection holds two tasks
    with id 2, and looking up the id of the second one returns the
    first. *)
Theorem get_returns_other_task :
  ∃ b c : Task,
    self_tasks reissued = [b; c]
    ∧ title b = VStr "b" ∧ title c = VStr "c"
    ∧ id b = VInt 2 ∧ id c = VInt 2
    ∧ TaskManager.get_task_by_id (id c) reissued = (Ok (Some b), reissued)
    ∧ b ≠ c.
Proof. vm_compute. eexists _, _. repeat split. intros [=]. Qed.

(** ** Saving and loading the snapshot *)

Lemma comprehension_to_dict_ok (ts : list Task) (s : State) :
  Forall serializable ts →
  comprehension call_to_dict ts s = (Ok (map Task.to_dict ts), s).
Proof.
  induction 1 as [|t ts Ht _ IH]; [reflexivity|].
  cbn [comprehension map]. rewrite run_bind. unfold call_to_dict at 1.
  rewrite Ht, run_ret, run_bind, IH. reflexivity.
Qed.

Lemma comprehension_to_dict_raise (ts : list Task) (s : State) :
  ¬ Forall serializable ts →
  comprehension call_to_dict ts s = (Raise (TypeError "object is not callable"), s).
Proof.
  induction ts as [|t ts IH]; intros Hnot; [by destruct Hnot|].
  cbn [comprehension]. rewrite run_bind. unfold call_to_dict at 1.
  destruct (shadowed t !! "to_dict") as [v|] eqn:Ht; [reflexivity|].
  rewrite run_ret, run_bind, IH; [reflexivity|].
  intros Hts. apply Hnot. by constructor.
Qed.

Lemma save_ok (s : State) :
  Forall serializable (self_tasks s) →
  TaskManager._save_tasks s
  = (Ok tt, put_session_tasks (map Task.to_dict (self_tasks s)) s).
Proof.
  intros H. unfold TaskManager._save_tasks. run.
  rewrite comprehension_to_dict_ok by done. reflexivity.
Qed.

Lemma save_raise (s : State) :
  ¬ Forall serializable (self_tasks s) →
  TaskManager._save_tasks s = (Raise (TypeError "object is not callable"), s).
Proof.
  intros H. unfold TaskManager._save_tasks. run.
  rewrite comprehension_to_dict_raise by done. reflexivity.
Qed.

(** Whatever [_save_tasks] does, it returns only after it has written the
    serialized collection. *)
Lemma save_inv (s s' : State) (r : result unit) :
  TaskManager._save_tasks s = (r, s') →
  (r = Ok tt ∧ Forall serializable (self_tasks s)
   ∧ s' = put_session_tasks (map Task.to_dict (self_tasks s)) s)
  ∨ ((∃ e, r = Raise e) ∧ s' = s).
Proof.
  destruct (decide (Forall serializable (self_tasks s))) as [H|H].
  - rewrite save_ok by done. intros [= <- <-]. by left.
  - rewrite save_raise by done. intros [= <- <-]. right. eauto.
Qed.

Lemma load_serialized (ts : list Task) (s : State) :
  comprehension Task.from_dict (map Task.to_dict ts) s
  = (Ok (map plain ts), ticks (2 * length ts) s).
Proof.
  revert s. induction ts as [|t ts IH]; intros s; [by destruct s|].
  cbn [comprehension map]. rewrite run_bind, from_dict_to_dict, run_bind, IH, run_ret.
  f_equal. unfold ticks, tick. cbn [self_tasks session_tasks clock now_calls length].
  f_equal. lia.
Qed.

Lemma construct_from_snapshot (ts : list Task) (s : State) :
  session_tasks s = Some (map Task.to_dict ts) →
  TaskManager.__init__ s
  = (Ok tt, put_self_tasks (map plain ts) (ticks (2 * length ts) s)).
Proof.
  intros Hs. unfold TaskManager.__init__, TaskManager._load_tasks. run.
  cbn [put_self_tasks session_tasks]. rewrite Hs.
  rewrite bool_decide_eq_false_2 by done. run.
  cbn [put_self_tasks session_tasks]. rewrite Hs.
  cbn [default from_option Datatypes.id]. rewrite load_serialized. reflexivity.
Qed.

Lemma construct_without_snapshot (s : State) :
  session_tasks s = None →
  TaskManager.__init__ s = (Ok tt, put_self_tasks [] (put_session_tasks [] s)).
Proof.
  intros Hs. unfold TaskManager.__init__, TaskManager._load_tasks. run.
  cbn [put_self_tasks session_tasks]. rewrite Hs.
  rewrite bool_decide_eq_true_2 by done. run. reflexivity.
Qed.

(** ** The three mutating calls, up to the final save *)

Lemma add_task_run (ttl descr : value) (s : State) :
  TaskManager.add_task ttl descr s
  = finish (new_task ttl descr s)
      (TaskManager._save_tasks
         (put_self_tasks (self_tasks s ++ [new_task ttl descr s]) (tick (tick s)))).
Proof.
  unfold TaskManager.add_task, Task.__init__, Task._generate_id. run.
  unfold finish. by destruct (TaskManager._save_tasks _) as [[[]|e] s2].
Qed.


Lemma assign_kwargs_clean (kwargs : list (string * value)) (t : Task) :
  gentle_kwargs kwargs →
  TaskManager.assign_kwargs kwargs t = (TaskManager.apply_kwargs kwargs t, None).
Proof.
  intros Hkw. revert t. induction Hkw as [|kv kwargs Hkv _ IH]; intros t; [reflexivity|].
  cbn [TaskManager.assign_kwargs]. unfold setattr. rewrite Hkv.
  unfold TaskManager.apply_kwargs in *. cbn [foldl].
  destruct (hasattr t kv.1); apply IH.
Qed.



(** [update_task] with a keyword argument named like a parameter. *)
Lemma update_task_clash (task_id : value) (kwargs : list (string * value)) (s : State) :
  ¬ bindable kwargs →
  TaskManager.update_task task_id kwargs s
  = (Raise (TypeError "got multiple values for argument"), s).
Proof.
  intros Hkw. unfold TaskManager.update_task.
  by rewrite (bool_decide_eq_false_2 (bindable kwargs)).
Qed.

(** [update_task], whatever the other keyword arguments are. *)
Lemma update_task_run_any (task_id : value) (kwargs : list (string * value)) (s : State) :
  bindable kwargs →
  TaskManager.update_task task_id kwargs s
  = match scan task_id (self_tasks s) with
    | Some (i, t) =>
        match TaskManager.assign_kwargs kwargs t with
        | (t', None) =>
            finish true
              (TaskManager._save_tasks
                 (put_self_tasks
                    (<[i := set_updated_at (VStr (clock s (now_calls s))) t']> (self_tasks s))
                    (tick s)))
        | (t', Some e) => (Raise e, put_self_tasks (<[i := t']> (self_tasks s)) s)
        end
    | None => (Ok false, s)
    end.
Proof.
  intros Hbind. unfold TaskManager.update_task.
  rewrite (bool_decide_eq_true_2 (bindable kwargs)) by done. run.
  destruct (scan task_id (self_tasks s)) as [[i t]|]; [|reflexivity].
  destruct (TaskManager.assign_kwargs kwargs t) as [t' [e|]].
  - unfold TaskManager.mutate. run. by rewrite list_insert_alter.
  - unfold TaskManager.mutate. run.
    cbn [put_self_tasks tick self_tasks session_tasks clock now_calls].
    rewrite list_alter_alter_eq, list_insert_alter.
    unfold finish, compose.
    by destruct (TaskManager._save_tasks _) as [[[]|e] s2].
Qed.

(** [update_task] when [setattr] refuses none of the names. *)
Lemma update_task_run (task_id : value) (kwargs : list (string * value)) (s : State) :
  bindable kwargs → gentle_kwargs kwargs →
  TaskManager.update_task task_id kwargs s
  = match scan task_id (self_tasks s) with
    | Some (i, _) =>
        finish true
          (TaskManager._save_tasks
             (put_self_tasks (alter (refresh kwargs s) i (self_tasks s)) (tick s)))
    | None => (Ok false, s)
    end.
Proof.
  intros Hbind Hkw. rewrite update_task_run_any by done.
  destruct (scan task_id (self_tasks s)) as [[i t]|] eqn:Hscan; [|reflexivity].
  apply scan_Some in Hscan as (Hi & _).
  rewrite assign_kwargs_clean by done.
  replace (alter (refresh kwargs s) i (self_tasks s))
    with (<[i := refresh kwargs s t]> (self_tasks s)); [reflexivity|].
  rewrite list_insert_alter. apply list_alter_ext; [|done].
  intros x Hx. congruence.
Qed.

Lemma delete_task_run (task_id : value) (s : State) :
  TaskManager.delete_task task_id s
  = match scan task_id (self_tasks s) with
    | Some (i, _) =>
        finish true
          (TaskManager._save_tasks (put_self_tasks (delete i (self_tasks s)) s))
    | None => (Ok false, s)
    end.
Proof.
  unfold TaskManager.delete_task. run.
  destruct (scan task_id (self_tasks s)) as [[i t]|]; [|reflexivity].
  run. unfold finish.
  by destruct (TaskManager._save_tasks _) as [[[]|e] s2].
Qed.

Lemma finish_ok {A : Type} (a : A) (s : State) :
  Forall serializable (self_tasks s) →
  finish a (TaskManager._save_tasks s)
  = (Ok a, put_session_tasks (map Task.to_dict (self_tasks s)) s).
Proof. intros H. by rewrite save_ok. Qed.

(** ** Deleting a task *)

(** X21. When every task can be serialized, [delete_task] removes the
    first task whose id matches, keeps the other tasks in their order,
    writes the snapshot and returns [True]; when no task has the id it
    returns [False] and changes nothing. *)
Lemma delete_task_first_match (task_id : value) (s : State) :
  Forall serializable (self_tasks s) →
  match scan task_id (self_tasks s) with
  | Some (i, t) =>
      ∃ s' : State,
        TaskManager.delete_task task_id s = (Ok true, s')
        ∧ self_tasks s' = delete i (self_tasks s)
        ∧ snapshot_ok s'
  | None => TaskManager.delete_task task_id s = (Ok false, s)
  end.
Proof.
  intros Hser. rewrite delete_task_run.
  destruct (scan task_id (self_tasks s)) as [[i t]|]; [|reflexivity].
  rewrite finish_ok by (by apply Forall_delete).
  eexists. split; [reflexivity|]. split; reflexivity.
Qed.

(** X20. With pairwise different ids, an id whose deletion returned
    [True] is not found any more. *)
Lemma delete_then_get_unique (task_id : value) (s s' : State) :
  NoDup (id <$> self_tasks s) →
  TaskManager.delete_task task_id s = (Ok true, s') →
  TaskManager.get_task_by_id task_id s' = (Ok None, s').
Proof.
  intros Hnd. rewrite delete_task_run.
  destruct (scan task_id (self_tasks s)) as [[i t]|] eqn:Hscan; [|discriminate].
  apply scan_Some in Hscan as (Hi & Ht & _).
  intros Hrun.
  assert (self_tasks s' = delete i (self_tasks s)) as Hs'.
  { unfold finish in Hrun.
    destruct (TaskManager._save_tasks _) as [[[]|e] s2] eqn:Hsave; [|discriminate].
    apply save_inv in Hsave as [(_ & _ & ->)|([e He] & _)]; [|discriminate].
    by injection Hrun as <-. }
  unfold TaskManager.get_task_by_id, gets. rewrite Hs'.
  replace (scan task_id (delete i (self_tasks s))) with (@None (nat * Task)); [done|].
  symmetry. apply scan_None, Forall_forall. intros u Hu Hid.
  apply list_elem_of_lookup in Hu as [j Hj].
  assert (∀ k, self_tasks s !! k = Some u → k = i) as Honly.
  { intros k Hk. eapply NoDup_lookup; [exact Hnd| |].
    - by rewrite list_lookup_fmap, Hk.
    - rewrite list_lookup_fmap, Hi. cbn. congruence. }
  destruct (decide (j < i)%nat) as [Hlt|Hge].
  - rewrite list_lookup_delete_lt in Hj by done. apply Honly in Hj. lia.
  - rewrite list_lookup_delete_ge in Hj by lia. apply Honly in Hj. lia.
Qed.

(** C3. In the session [reissued] two tasks carry the id 2:
    [delete_task(2)] returns [True] and removes the first of them, and
    [get_task_by_id(2)] then still finds a task. *)
Theorem delete_then_get_finds_task :
  ∃ (s' : State) (c : Task),
    TaskManager.delete_task (VInt 2) reissued = (Ok true, s')
    ∧ self_tasks s' = [c] ∧ title c = VStr "c"
    ∧ TaskManager.get_task_by_id (VInt 2) s' = (Ok (Some c), s').
Proof. vm_compute. eexists _, _. repeat split. Qed.

(** ** Adding a task *)

(** C4, as the code has it.  In a state whose snapshot mirrors the
    collection, [add_task] returns a new task whose id is the size of
    the collection plus one and whose status is pending; [created_at] and
    [updated_at] are two successive readings of the clock, the first and
    the second; the task is appended at the end of the collection, and
    the snapshot is written again. *)
Theorem add_task_spec (ttl descr : value) (s : State) :
  snapshot_ok s → Forall serializable (self_tasks s) →
  ∃ (t : Task) (s' : State),
    TaskManager.add_task ttl descr s = (Ok t, s')
    ∧ id t = VInt (Z.of_nat (length (self_tasks s)) + 1)
    ∧ title t = ttl ∧ description t = descr
    ∧ status t = VStr "pending"
    ∧ created_at t = VStr (clock s (now_calls s))
    ∧ updated_at t = VStr (clock s (S (now_calls s)))
    ∧ self_tasks s' = (self_tasks s ++ [t])%list
    ∧ snapshot_ok s'.
Proof.
  intros Hsnap Hser. rewrite add_task_run.
  rewrite finish_ok.
  2:{ cbn [put_self_tasks self_tasks]. apply Forall_app. split; [done|].
      by repeat constructor. }
  eexists _, _. split; [reflexivity|].
  unfold new_task. cbn [id title description status created_at updated_at].
  rewrite Hsnap. cbn [default from_option Datatypes.id]. rewrite length_map.
  repeat split.
Qed.

Lemma add_task_spec_witness :
  ∃ (t : Task) (s' : State),
    TaskManager.add_task (VStr "Buy milk") (VStr "") (after [Construct] new_session)
    = (Ok t, s')
    ∧ id t = VInt 1.
Proof.
  destruct (add_task_spec (VStr "Buy milk") (VStr "") (after [Construct] new_session))
    as (t & s' & Hrun & Hid & _).
  - reflexivity.
  - constructor.
  - exists t, s'. split; [exact Hrun|exact Hid].
Defined.

(** C4, as it was stated: the two timestamps of a new task need not be
    equal.  With a clock that advances between two readings they
    differ. *)
Lemma add_task_timestamps_differ :
  ∃ (t : Task) (s' : State),
    TaskManager.add_task (VStr "Buy milk") (VStr "") (after [Construct] new_session)
    = (Ok t, s')
    ∧ created_at t = VStr "2024-01-01T00:00:00.000001"
    ∧ updated_at t = VStr "2024-01-01T00:00:00.000002"
    ∧ created_at t ≠ updated_at t.
Proof. vm_compute. eexists _, _. repeat split. intros [=]. Qed.

(** ** The persistence protocol *)









(** ** Keyword arguments of [update_task] *)

Ltac by_name :=
  repeat match goal with
    | |- context [String.eqb ?a ?b] =>
        destruct (String.eqb_spec a b); subst; try discriminate; try congruence
    end.

Lemma getattr_store (t : Task) (k k' : string) (v : value) :
  getattr (store t k v) k' = if String.eqb k k' then Some v else getattr t k'.
Proof.
  unfold store, getattr.
  destruct (String.eqb_spec k "id") as [->|?];
    [by_name; reflexivity|].
  destruct (String.eqb_spec k "title") as [->|?];
    [by_name; reflexivity|].
  destruct (String.eqb_spec k "description") as [->|?];
    [by_name; reflexivity|].
  destruct (String.eqb_spec k "status") as [->|?];
    [by_name; reflexivity|].
  destruct (String.eqb_spec k "created_at") as [->|?];
    [by_name; reflexivity|].
  destruct (String.eqb_spec k "updated_at") as [->|?];
    [by_name; reflexivity|].
  by_name; cbn [shadowed set_shadowed id title description status created_at updated_at];
    try reflexivity; by simplify_map_eq.
Qed.

Lemma hasattr_store (t : Task) (k k' : string) (v : value) :
  hasattr t k = true → hasattr (store t k v) k' = hasattr t k'.
Proof.
  intros Hk. unfold hasattr, store in *.
  destruct (String.eqb k "id"); [done|].
  destruct (String.eqb k "title"); [done|].
  destruct (String.eqb k "description"); [done|].
  destruct (String.eqb k "status"); [done|].
  destruct (String.eqb k "created_at"); [done|].
  destruct (String.eqb k "updated_at"); [done|].
  cbn [shadowed set_shadowed].
  destruct (decide (k = k')) as [<-|Hne].
  - rewrite Hk, lookup_insert_eq.
    rewrite (bool_decide_eq_true_2 (is_Some (Some v))) by (by eexists).
    apply orb_true_r.
  - by rewrite lookup_insert_ne.
Qed.

Lemma apply_kwargs_snoc (kwargs : list (string * value)) (kv : string * value) (t : Task) :
  TaskManager.apply_kwargs (kwargs ++ [kv]) t
  = let t' := TaskManager.apply_kwargs kwargs t in
    if hasattr t' kv.1 then store t' kv.1 kv.2 else t'.
Proof. unfold TaskManager.apply_kwargs. by rewrite foldl_snoc. Qed.

Lemma assigned_snoc (k : string) (kwargs : list (string * value)) (kv : string * value) :
  assigned k (kwargs ++ [kv])
  = if String.eqb kv.1 k then Some kv.2 else assigned k kwargs.
Proof. unfold assigned. by rewrite foldl_snoc. Qed.

Lemma hasattr_apply_kwargs (kwargs : list (string * value)) (t : Task) (k : string) :
  hasattr (TaskManager.apply_kwargs kwargs t) k = hasattr t k.
Proof.
  induction kwargs as [|kv kwargs IH] using rev_ind; [reflexivity|].
  rewrite apply_kwargs_snoc. cbn zeta.
  destruct (hasattr _ kv.1) eqn:Hkv; [|exact IH].
  by rewrite hasattr_store.
Qed.

(** The loop overwrites the attributes that the task has and that the
    keyword arguments name, and no other. *)
Lemma getattr_apply_kwargs (kwargs : list (string * value)) (t : Task) (k : string) :
  getattr (TaskManager.apply_kwargs kwargs t) k
  = match assigned k kwargs with
    | Some v => if hasattr t k then Some v else getattr t k
    | None => getattr t k
    end.
Proof.
  induction kwargs as [|kv kwargs IH] using rev_ind; [reflexivity|].
  rewrite apply_kwargs_snoc, assigned_snoc. cbn zeta.
  destruct (hasattr (TaskManager.apply_kwargs kwargs t) kv.1) eqn:Hkv.
  - rewrite getattr_store.
    destruct (String.eqb_spec kv.1 k) as [<-|Hne]; [|exact IH].
    rewrite hasattr_apply_kwargs in Hkv. by rewrite Hkv.
  - destruct (String.eqb_spec kv.1 k) as [<-|Hne]; [|exact IH].
    rewrite hasattr_apply_kwargs in Hkv. rewrite Hkv, IH.
    destruct (assigned kv.1 kwargs); by rewrite ?Hkv.
Qed.

Lemma assigned_None (k : string) (kwargs : list (string * value)) :
  k ∉ kwargs.*1 → assigned k kwargs = None.
Proof.
  induction kwargs as [|kv kwargs IH] using rev_ind; [reflexivity|].
  rewrite fmap_app, assigned_snoc. cbn [fmap list_fmap]. intros Hk.
  destruct (String.eqb_spec kv.1 k) as [<-|Hne].
  - exfalso. apply Hk, elem_of_app. right. constructor.
  - apply IH. intros Hin. apply Hk, elem_of_app. by left.
Qed.

Lemma assigned_Some (k : string) (kwargs : list (string * value)) (v : value) :
  assigned k kwargs = Some v → (k, v) ∈ kwargs.
Proof.
  induction kwargs as [|kv kwargs IH] using rev_ind; [discriminate|].
  rewrite assigned_snoc.
  destruct (String.eqb_spec kv.1 k) as [<-|Hne].
  - intros [= <-]. destruct kv. set_solver.
  - intros H. apply IH in H. set_solver.
Qed.

Lemma alter_insert (f : Task → Task) (i : nat) (t : Task) (ts : list Task) :
  ts !! i = Some t → alter f i ts = <[i := f t]> ts.
Proof.
  intros Hi. rewrite list_insert_alter. apply list_alter_ext; [|done].
  intros x Hx. congruence.
Qed.

Lemma scan_insert (task_id : value) (ts : list Task) (i : nat) (t t' : Task) :
  scan task_id ts = Some (i, t) → id t' = task_id →
  scan task_id (<[i := t']> ts) = Some (i, t').
Proof.
  intros (Hi & Ht & Hfirst)%scan_Some Ht'. apply scan_Some.
  split; [|split; [done|]].
  - apply list_lookup_insert_eq. by eapply lookup_lt_Some.
  - intros j u Hj Hlt. rewrite list_lookup_insert_ne in Hj by lia.
    by apply (Hfirst j).
Qed.







(** ** Invariants of the reachable states *)

Lemma bind_ret_state {A : Type} (c : M A) (s s' : State) (r : result unit) :
  (c ≫= λ _, mret tt) s = (r, s') → ∃ r0 : result A, c s = (r0, s').
Proof.
  rewrite run_bind. destruct (c s) as [[a|e] s2]; intros [= _ <-]; eauto.
Qed.

Section Invariant.

Variable P : (nat → string) → nat → Task → Prop.
Variable allowed : call → Prop.

Hypothesis allowed_gentle : ∀ c, allowed c → gentle c.
Hypothesis P_later : ∀ clk n m t, (n ≤ m)%nat → P clk n t → P clk m t.
Hypothesis P_plain : ∀ clk n t, P clk n t → P clk n (plain t).
Hypothesis P_new : ∀ clk n i ttl descr,
  P clk (S (S n)) (mkTask i ttl descr (VStr "pending") (VStr (clk n)) (VStr (clk (S n))) ∅).
Hypothesis P_update : ∀ clk n i kwargs t,
  allowed (Update i kwargs) → P clk n t →
  P clk (S n) (set_updated_at (VStr (clk n)) (TaskManager.apply_kwargs kwargs t)).

Lemma holds_save (s s' : State) (r : result unit) :
  holds P s → TaskManager._save_tasks s = (r, s') → holds P s'.
Proof.
  intros [Hts Hsnap] [(_ & _ & ->)|(_ & ->)]%save_inv; [|by split].
  split; [exact Hts|]. exists (self_tasks s). by split.
Qed.

Lemma holds_finish {A : Type} (a : A) (s s' : State) (r : result A) :
  holds P s → finish a (TaskManager._save_tasks s) = (r, s') → holds P s'.
Proof.
  intros Hs. unfold finish.
  destruct (TaskManager._save_tasks s) as [[[]|e] s2] eqn:Hsave;
    intros [= _ <-]; by eapply holds_save.
Qed.

Lemma holds_exec (s s' : State) (c : call) (r : result unit) :
  holds P s → allowed c → exec c s = (r, s') → holds P s'.
Proof.
  intros [Hts (ts & Hsnap & Hsts)] Hc.
  destruct c as [|ttl descr|i|i kwargs|i|f|]; cbn [exec].
  - destruct (session_tasks s) as [ds|] eqn:Hds.
    + cbn in Hsnap. subst ds. rewrite (construct_from_snapshot ts) by done.
      intros [= _ <-]. split; cbn [put_self_tasks ticks self_tasks clock now_calls session_tasks].
      * apply Forall_fmap. eapply Forall_impl; [exact Hsts|].
        intros t Ht. cbn. apply P_plain. eapply P_later; [|exact Ht]. lia.
      * exists ts. rewrite Hds. split; [done|].
        eapply Forall_impl; [exact Hsts|]. intros t Ht. eapply P_later; [|exact Ht]. lia.
    + rewrite construct_without_snapshot by done. intros [= _ <-].
      split; [constructor|]. exists []. split; [done|constructor].
  - intros [r0 Hrun]%bind_ret_state. rewrite add_task_run in Hrun.
    eapply holds_finish; [|exact Hrun].
    split; cbn [put_self_tasks tick self_tasks clock now_calls session_tasks].
    + apply Forall_app. split.
      * eapply Forall_impl; [exact Hts|]. intros t Ht. eapply P_later; [|exact Ht]. lia.
      * constructor; [apply P_new|constructor].
    + exists ts. split; [done|].
      eapply Forall_impl; [exact Hsts|]. intros t Ht. eapply P_later; [|exact Ht]. lia.
  - intros [= _ <-]. split; eauto.
  - intros [r0 Hrun]%bind_ret_state.
    destruct (decide (bindable kwargs)) as [Hbind|Hbind];
      [|rewrite update_task_clash in Hrun by done; injection Hrun as _ <-; split; eauto].
    rewrite update_task_run in Hrun by (done || exact (allowed_gentle _ Hc)).
    destruct (scan i (self_tasks s)) as [[k t]|]; [|injection Hrun as _ <-; split; eauto].
    eapply holds_finish; [|exact Hrun].
    split; cbn [put_self_tasks tick self_tasks clock now_calls session_tasks].
    + apply Forall_alter.
      * eapply Forall_impl; [exact Hts|]. intros u Hu. eapply P_later; [|exact Hu]. lia.
      * intros u Hu _. apply (P_update _ _ i); [done|].
        exact (proj1 (Forall_lookup _ _) Hts k u Hu).
    + exists ts. split; [done|].
      eapply Forall_impl; [exact Hsts|]. intros u Hu. eapply P_later; [|exact Hu]. lia.
  - intros [r0 Hrun]%bind_ret_state. rewrite delete_task_run in Hrun.
    destruct (scan i (self_tasks s)) as [[k t]|]; [|injection Hrun as _ <-; split; eauto].
    eapply holds_finish; [|exact Hrun].
    split; cbn [put_self_tasks self_tasks clock now_calls session_tasks].
    + by apply Forall_delete.
    + eauto.
  - destruct f as [[|]|]; intros [= _ <-]; split; eauto.
  - intros [= _ <-]. split; eauto.
Qed.

Lemma reachable_holds (s : State) : reachable allowed s → holds P s.
Proof.
  induction 1 as [clk n|s s' c r _ IH Hc Hrun].
  - split; [constructor|]. exists []. split; [done|constructor].
  - by eapply holds_exec.
Qed.

End Invariant.

(** *** Every [updated_at] is an earlier reading of the clock *)

Lemma reachable_stamped (allowed : call → Prop) (s : State) :
  (∀ c, allowed c → gentle c) →
  reachable allowed s → Forall (stamped (clock s) (now_calls s)) (self_tasks s).
Proof.
  intros Hgentle Hs.
  refine (proj1 (reachable_holds stamped allowed Hgentle _ _ _ _ s Hs)).
  - intros clk n m t Hnm (j & Hj & Hu). exists j. split; [lia|done].
  - intros clk n t Ht. exact Ht.
  - intros clk n i ttl descr. exists (S n). split; [lia|done].
  - intros clk n i kwargs t _ _. exists n. split; [lia|done].
Qed.

(** In a reachable state the task that an update finds carries an
    earlier reading of the clock, so that the refreshed [updated_at] is
    not before the previous one when the readings never decrease. *)
Lemma refresh_not_before (allowed : call → Prop) (kwargs : list (string * value))
    (s : State) (i : nat) (t : Task) :
  (∀ c, allowed c → gentle c) →
  reachable allowed s → monotone (clock s) → self_tasks s !! i = Some t →
  py_le (updated_at t) (updated_at (refresh kwargs s t)) = Some true.
Proof.
  intros Hgentle Hs Hmono Hi.
  destruct (proj1 (Forall_lookup _ _) (reachable_stamped allowed s Hgentle Hs) i t Hi)
    as (j & Hj & Hu).
  rewrite Hu. cbn. f_equal. apply Hmono. lia.
Qed.

(** *** Status and timestamps under disciplined updates *)

Lemma well_kept_update (clk : nat → string) (n : nat) (kwargs : list (string * value)) (t : Task) :
  disciplined (Update VNone kwargs) → well_kept clk n t →
  well_kept clk (S n) (set_updated_at (VStr (clk n)) (TaskManager.apply_kwargs kwargs t)).
Proof.
  intros Hkw (Hst & i & j & Hij & Hj & Hc & Hu). cbn in Hkw.
  rewrite Forall_forall in Hkw.
  pose proof (getattr_apply_kwargs kwargs t "status") as Hstatus.
  pose proof (getattr_apply_kwargs kwargs t "created_at") as Hcreated.
  rewrite (assigned_None "created_at") in Hcreated.
  2:{ intros ([k v] & Hk & Hin)%list_elem_of_fmap. cbn in Hk. subst k.
      by destruct (Hkw _ Hin) as (Hne & _ & _). }
  injection Hcreated as Hcreated.
  split.
  - unfold status_ok. cbn [status set_updated_at].
    destruct (assigned "status" kwargs) as [v|] eqn:Hv.
    + injection Hstatus as ->. apply assigned_Some in Hv.
      destruct (Hkw _ Hv) as (_ & Hok & _). by apply Hok.
    + injection Hstatus as ->. exact Hst.
  - exists i, n. split; [lia|]. split; [lia|]. split; [|reflexivity].
    cbn [created_at set_updated_at]. congruence.
Qed.

Lemma disciplined_gentle (c : call) : disciplined c → gentle c.
Proof.
  destruct c as [|ttl descr|i|i kwargs|i|f|]; cbn [disciplined gentle]; try done.
  intros Hkw. eapply Forall_impl; [exact Hkw|]. by intros kv (_ & _ & Hr).
Qed.

Lemma reachable_well_kept (s : State) :
  reachable disciplined s → Forall (well_kept (clock s) (now_calls s)) (self_tasks s).
Proof.
  intros Hs.
  refine (proj1 (reachable_holds well_kept disciplined disciplined_gentle _ _ _ _ s Hs)).
  - intros clk n m t Hnm (Hst & i & j & Hij & Hj & Hc & Hu).
    split; [done|]. exists i, j. repeat split; [done|lia|done|done].
  - intros clk n t Ht. exact Ht.
  - intros clk n i ttl descr. split; [by left|].
    exists n, (S n). repeat split; lia.
  - intros clk n i kwargs t Hkw Ht. by apply well_kept_update.
Qed.


Lemma reachable_after (allowed : call → Prop) (cs : list call) (s : State) :
  reachable allowed s → Forall allowed cs → reachable allowed (after cs s).
Proof.
  intros Hs Hcs. revert s Hs. induction Hcs as [|c cs Hc _ IH]; intros s Hs; [exact Hs|].
  cbn [after foldl]. apply IH.
  eapply reach_step; [exact Hs|exact Hc|]. apply surjective_pairing.
Qed.



(** Why the names that [setattr] refuses are left out above: the loop
    raises at such a name, the assignments made before it stay, and
    [updated_at] is not refreshed.  After [update_task(1,
    updated_at="0000-01-01T00:00:00", __class__="x")] the task was
    updated before it was created. *)
Lemma refused_name_skips_refresh :
  ∃ (t : Task) (s' : State),
    TaskManager.update_task (VInt 1)
      [("updated_at", VStr "0000-01-01T00:00:00"); ("__class__", VStr "x")]
      (after [Construct; Add (VStr "a") (VStr "")] new_session)
    = (Raise (TypeError "__class__ must be set to a class"), s')
    ∧ self_tasks s' = [t]
    ∧ py_le (created_at t) (updated_at t) = Some false.
Proof. vm_compute. eexists _, _. repeat split. Qed.


(** * Further properties of the code *)

(** ** Queries *)

(** X1. [get_task_by_id] changes nothing.  It returns the first task of
    the collection whose id equals the argument, and [None] exactly when
    no task has that id. *)
Theorem get_task_by_id_first_match (task_id : value) (s : State) :
  ∃ r : option Task,
    TaskManager.get_task_by_id task_id s = (Ok r, s)
    ∧ match r with
      | Some t =>
          ∃ i : nat,
            self_tasks s !! i = Some t ∧ id t = task_id
            ∧ ∀ (j : nat) (u : Task),
                self_tasks s !! j = Some u → (j < i)%nat → id u ≠ task_id
      | None => ∀ t : Task, t ∈ self_tasks s → id t ≠ task_id
      end.
Proof.
  unfold TaskManager.get_task_by_id, gets. eexists. split; [reflexivity|].
  destruct (scan task_id (self_tasks s)) as [[i t]|] eqn:Hscan; cbn.
  - exists i. by apply scan_Some.
  - apply scan_None in Hscan. by apply Forall_forall.
Qed.

(** X2. [get_all_tasks] changes nothing and returns tasks of the
    collection in their order.  Without a filter, or with the empty
    string as filter, it returns the whole collection; with another
    filter it returns exactly the tasks whose status is that string: the
    collection with the other tasks left out, every task as often as it
    occurs and in the order of the collection. *)
Theorem get_all_tasks_spec (status_filter : option string) (s : State) :
  ∃ ts : list Task,
    TaskManager.get_all_tasks status_filter s = (Ok ts, s)
    ∧ ts `sublist_of` self_tasks s
    ∧ match status_filter with
      | None | Some "" => ts = self_tasks s
      | Some f =>
          ts = filter (λ t : Task, status t = VStr f) (self_tasks s)
          ∧ (∀ t : Task, t ∈ ts ↔ t ∈ self_tasks s ∧ status t = VStr f)
          ∧ ∀ t : Task, status t = VStr f →
              length (filter (λ u : Task, u = t) ts)
              = length (filter (λ u : Task, u = t) (self_tasks s))
      end.
Proof.
  destruct status_filter as [[|a f]|]; cbn [TaskManager.get_all_tasks].
  - exists (self_tasks s). by repeat split.
  - eexists. split; [reflexivity|]. split; [apply sublist_filter|].
    unfold gets. cbn [fst].
    assert (filter (λ task : Task, py_eq (status task) (VStr (String a f)) = true)
              (self_tasks s)
            = filter (λ t : Task, status t = VStr (String a f)) (self_tasks s)) as ->.
    { apply list_filter_iff. intros t. unfold py_eq. apply bool_decide_eq_true. }
    split; [reflexivity|]. split.
    + intros t. rewrite list_elem_of_filter. tauto.
    + intros t Ht. induction (self_tasks s) as [|u us IH]; [reflexivity|].
      destruct (decide (status u = VStr (String a f))) as [Hu|Hu].
      * rewrite (filter_cons_True (λ t0 : Task, status t0 = VStr (String a f))) by done.
        destruct (decide (u = t)) as [Hut|Hut].
        -- rewrite !(filter_cons_True (λ u0 : Task, u0 = t)) by done.
           cbn [length]. by rewrite IH.
        -- by rewrite !(filter_cons_False (λ u0 : Task, u0 = t)) by done.
      * rewrite (filter_cons_False (λ t0 : Task, status t0 = VStr (String a f))) by done.
        rewrite (filter_cons_False (λ u0 : Task, u0 = t)); [exact IH|].
        intros ->. contradiction.
  - exists (self_tasks s). by repeat split.
Qed.

Lemma count_status_le (ts : list Task) :
  (count_status "pending" ts + count_status "completed" ts ≤ length ts)%nat
  ∧ ((count_status "pending" ts + count_status "completed" ts = length ts)%nat
     ↔ Forall status_ok ts).
Proof.
  induction ts as [|t ts [IHle IHeq]]; [split; [done|split; [constructor|done]]|].
  cbn [count_status length]. rewrite Forall_cons. unfold status_ok at 1.
  destruct (decide (status t = VStr "pending")) as [Hp|Hp];
    destruct (decide (status t = VStr "completed")) as [Hc|Hc];
    try (rewrite Hp in Hc; discriminate Hc);
    rewrite ?(bool_decide_eq_true_2 _ Hp), ?(bool_decide_eq_false_2 _ Hp),
            ?(bool_decide_eq_true_2 _ Hc), ?(bool_decide_eq_false_2 _ Hc).
  - split; [lia|]. rewrite <- IHeq. split; [intros; split; [tauto|lia]|intros [_ ?]; lia].
  - split; [lia|]. rewrite <- IHeq. split; [intros; split; [tauto|lia]|intros [_ ?]; lia].
  - split; [lia|]. split; [lia|]. intros [[?|?] _]; contradiction.
Qed.

(** X3. In the statistics, [pending] and [completed] together never
    exceed [total]; they add up to [total] exactly when every task of the
    collection has the status pending or completed. *)
Theorem get_stats_counts (s : State) :
  ∃ st : Stats,
    TaskManager.get_stats s = (Ok st, s)
    ∧ (pending st + completed st ≤ total st)%nat
    ∧ ((pending st + completed st = total st)%nat ↔ Forall status_ok (self_tasks s)).
Proof.
  eexists. split; [reflexivity|]. cbn [total pending completed].
  rewrite !count_status_filter. apply count_status_le.
Qed.

(** ** Serialized records *)

Lemma to_dict_dom (t : Task) :
  dom (Task.to_dict t) = (list_to_set data_attrs : gset string).
Proof. unfold Task.to_dict. rewrite dom_list_to_map_L. reflexivity. Qed.

Lemma from_dict_ok_inv (data : gmap string value) (s s' : State) (t : Task) :
  Task.from_dict data s = (Ok t, s') →
  Task.to_dict t !! "id" = data !! "id"
  ∧ Task.to_dict t !! "title" = data !! "title"
  ∧ Task.to_dict t !! "description" = data !! "description"
  ∧ Task.to_dict t !! "status" = data !! "status"
  ∧ Task.to_dict t !! "created_at" = data !! "created_at"
  ∧ Task.to_dict t !! "updated_at" = data !! "updated_at"
  ∧ shadowed t = ∅ ∧ s' = tick (tick s).
Proof.
  unfold Task.from_dict, Task.getitem.
  destruct (data !! "title") as [vt|]; [|discriminate].
  destruct (data !! "description") as [vd|]; [|discriminate].
  destruct (data !! "status") as [vs|]; [|discriminate].
  destruct (data !! "id") as [vi|]; [|discriminate].
  destruct (data !! "created_at") as [vc|]; [|discriminate].
  destruct (data !! "updated_at") as [vu|]; [|discriminate].
  intros [= <- <-]. repeat split.
Qed.

(** X4. A serialized task has exactly the six keys [id], [title],
    [description], [status], [created_at] and [updated_at], and two tasks
    have the same serialization exactly when they agree on these six
    attributes. *)
Theorem to_dict_keys_and_injectivity (t t' : Task) :
  dom (Task.to_dict t) = (list_to_set data_attrs : gset string)
  ∧ (Task.to_dict t = Task.to_dict t' ↔ plain t = plain t').
Proof.
  split; [apply to_dict_dom|]. split.
  - intros Heq.
    destruct (to_dict_lookup t) as (Hi & Ht & Hd & Hs & Hc & Hu).
    destruct (to_dict_lookup t') as (Hi' & Ht' & Hd' & Hs' & Hc' & Hu').
    rewrite Heq in Hi, Ht, Hd, Hs, Hc, Hu.
    destruct t, t'. unfold plain, set_shadowed. cbn in *. congruence.
  - intros Heq. change (Task.to_dict (plain t) = Task.to_dict (plain t')).
    by rewrite Heq.
Qed.

Lemma to_dict_outside (t : Task) (k : string) :
  k ∉ data_attrs → Task.to_dict t !! k = None.
Proof.
  intros Hk. apply not_elem_of_dom. rewrite to_dict_dom.
  by rewrite elem_of_list_to_set.
Qed.

Lemma from_dict_restriction (data : gmap string value) (s s' : State) (t : Task) :
  Task.from_dict data s = (Ok t, s') →
  Task.to_dict t = filter (λ kv : string * value, kv.1 ∈ data_attrs) data.
Proof.
  intros (Hi & Ht & Hd & Hs & Hc & Hu & _)%from_dict_ok_inv.
  apply map_eq. intros k. symmetry.
  destruct (decide (k ∈ data_attrs)) as [Hk|Hk].
  - assert (Task.to_dict t !! k = data !! k) as ->.
    { unfold data_attrs in Hk.
      repeat (apply elem_of_cons in Hk as [->|Hk]; [done|]).
      by apply elem_of_nil in Hk. }
    destruct (data !! k) as [v|] eqn:Hv.
    + by apply map_lookup_filter_Some_2.
    + apply map_lookup_filter_None_2. by left.
  - rewrite to_dict_outside by done.
    apply map_lookup_filter_None_2. right. intros v _. exact Hk.
Qed.

(** X5. The round trip in the other direction: when [from_dict] returns
    a task, the serialization of that task is the record restricted to
    the six keys, so it is the record itself when the record has no other
    key.  The task carries no attribute besides the six, and two readings
    of the clock were taken. *)
Theorem to_dict_from_dict (data : gmap string value) (s s' : State) (t : Task) :
  Task.from_dict data s = (Ok t, s') →
  Task.to_dict t = filter (λ kv : string * value, kv.1 ∈ data_attrs) data
  ∧ (dom data = (list_to_set data_attrs : gset string) → Task.to_dict t = data)
  ∧ shadowed t = ∅
  ∧ now_calls s' = S (S (now_calls s)).
Proof.
  intros Hrun. pose proof (from_dict_restriction _ _ _ _ Hrun) as Hfilter.
  apply from_dict_ok_inv in Hrun as (_ & _ & _ & _ & _ & _ & Hsh & ->).
  split; [exact Hfilter|]. split; [|by split].
  intros Hdom. rewrite Hfilter. apply map_filter_id.
  intros k v Hv. cbn. apply (elem_of_list_to_set (C := gset string)).
  rewrite <- Hdom. by apply elem_of_dom_2 in Hv.
Qed.

Lemma to_dict_from_dict_witness :
  ∃ t : Task,
    Task.to_dict t
    = filter (λ kv : string * value, kv.1 ∈ data_attrs)
        (<["owner" := VStr "ann"]> (Task.to_dict (new_task (VStr "a") (VStr "") new_session))).
Proof.
  destruct (Task.from_dict
              (<["owner" := VStr "ann"]>
                 (Task.to_dict (new_task (VStr "a") (VStr "") new_session)))
              new_session) as [[t|e] s'] eqn:Hrun.
  - exists t. exact (proj1 (to_dict_from_dict _ _ _ _ Hrun)).
  - vm_compute in Hrun. discriminate Hrun.
Defined.

(** ** Constructing the manager from any snapshot *)

Lemma from_dict_outcome (data : gmap string value) (s : State) :
  (∃ t : Task, Task.from_dict data s = (Ok t, tick (tick s)))
  ∨ (∃ (k : string) (s' : State),
       k ∈ data_attrs ∧ data !! k = None
       ∧ Task.from_dict data s = (Raise (KeyError k), s')
       ∧ self_tasks s' = self_tasks s ∧ session_tasks s' = session_tasks s).
Proof.
  unfold Task.from_dict, Task.getitem, data_attrs.
  destruct (data !! "title") as [vt|] eqn:Ht;
    [|right; exists "title", s; split; [set_solver|done]].
  destruct (data !! "description") as [vd|] eqn:Hd;
    [|right; exists "description", s; split; [set_solver|done]].
  destruct (data !! "status") as [vs|] eqn:Hs;
    [|right; exists "status", s; split; [set_solver|done]].
  destruct (data !! "id") as [vi|] eqn:Hi;
    [|right; exists "id", (tick (tick s)); split; [set_solver|done]].
  destruct (data !! "created_at") as [vc|] eqn:Hc;
    [|right; exists "created_at", (tick (tick s)); split; [set_solver|done]].
  destruct (data !! "updated_at") as [vu|] eqn:Hu;
    [|right; exists "updated_at", (tick (tick s)); split; [set_solver|done]].
  left. eexists. reflexivity.
Qed.

Lemma from_dict_ok_complete (data : gmap string value) (s s' : State) (t : Task) :
  Task.from_dict data s = (Ok t, s') →
  Forall (λ k, is_Some (data !! k)) data_attrs.
Proof.
  intros Hrun. destruct (from_dict_outcome data s) as [_|(k & s1 & _ & _ & Hr & _)];
    [|congruence].
  apply from_dict_ok_inv in Hrun as (Hi & Ht & Hd & Hs & Hc & Hu & _).
  destruct (to_dict_lookup t) as (Hi' & Ht' & Hd' & Hs' & Hc' & Hu').
  unfold data_attrs. repeat constructor;
    [rewrite <- Hi|rewrite <- Ht|rewrite <- Hd|rewrite <- Hs|rewrite <- Hc|rewrite <- Hu];
    eauto.
Qed.

(** Loading a list of records: all of them are deserialized, or the first
    record that lacks a key stops the loop with [KeyError]; the collection
    and the snapshot are not touched meanwhile. *)
Lemma load_outcome (ds : list (gmap string value)) (s : State) :
  (complete ds ∧
   ∃ (ts : list Task) (s' : State),
     comprehension Task.from_dict ds s = (Ok ts, s')
     ∧ map Task.to_dict ts
       = map (filter (λ kv : string * value, kv.1 ∈ data_attrs)) ds
     ∧ Forall serializable ts
     ∧ self_tasks s' = self_tasks s ∧ session_tasks s' = session_tasks s)
  ∨ (¬ complete ds ∧
     ∃ (k : string) (s' : State),
       comprehension Task.from_dict ds s = (Raise (KeyError k), s')
       ∧ k ∈ data_attrs
       ∧ self_tasks s' = self_tasks s ∧ session_tasks s' = session_tasks s).
Proof.
  revert s. induction ds as [|d ds IH]; intros s.
  - left. split; [constructor|]. exists [], s. by repeat split.
  - cbn [comprehension]. rewrite run_bind.
    destruct (from_dict_outcome d s) as [[t Ht]|(k & s1 & Hk & Hnone & Hr & Hself & Hsess)].
    + rewrite Ht, run_bind.
      pose proof (from_dict_ok_complete _ _ _ _ Ht) as Hd.
      pose proof (from_dict_restriction _ _ _ _ Ht) as Hdict.
      pose proof Ht as (_ & _ & _ & _ & _ & _ & Hsh & _)%from_dict_ok_inv.
      destruct (IH (tick (tick s)))
        as [(Hds & ts & s' & -> & Hmap & Hser & Hself & Hsess)
           |(Hds & k & s' & -> & Hk & Hself & Hsess)].
      * left. split; [by constructor|]. exists (t :: ts), s'.
        split; [reflexivity|]. cbn [map]. rewrite Hdict, Hmap.
        split; [reflexivity|]. split; [|by split].
        constructor; [|done]. unfold serializable. by rewrite Hsh.
      * right. split; [intros Hall; by inversion Hall|]. exists k, s'.
        by repeat split.
    + rewrite Hr. right. split.
      * intros Hall. inversion Hall as [|? ? Hd _]; subst.
        by eapply missing_key_not_all.
      * exists k, s1. by repeat split.
Qed.

Lemma construct_run (s : State) :
  TaskManager.__init__ s
  = match session_tasks s with
    | None => (Ok tt, put_self_tasks [] (put_session_tasks [] s))
    | Some ds =>
        match comprehension Task.from_dict ds (put_self_tasks [] s) with
        | (Ok ts, s1) => (Ok tt, put_self_tasks ts s1)
        | (Raise e, s1) => (Raise e, s1)
        end
    end.
Proof.
  destruct (session_tasks s) as [ds|] eqn:Hs;
    [|by apply construct_without_snapshot].
  unfold TaskManager.__init__, TaskManager._load_tasks. run.
  cbn [put_self_tasks session_tasks]. rewrite Hs.
  rewrite bool_decide_eq_false_2 by done. run.
  cbn [put_self_tasks session_tasks]. rewrite Hs.
  cbn [default from_option Datatypes.id].
  by destruct (comprehension _ _ _) as [[ts|e] s1].
Qed.

(** X6. [TaskManager()] returns exactly when every record of the
    snapshot has the six keys.  Then the collection holds one task per
    record, in order, whose serialization is the record restricted to the
    six keys, and the snapshot is kept.  Otherwise it raises [KeyError]
    for one of the six keys, the collection of the manager stays empty,
    and the snapshot is kept as well. *)
Theorem construct_outcome (ds : list (gmap string value)) (s : State) :
  session_tasks s = Some ds →
  (complete ds ∧
   ∃ s' : State,
     TaskManager.__init__ s = (Ok tt, s')
     ∧ map Task.to_dict (self_tasks s')
       = map (filter (λ kv : string * value, kv.1 ∈ data_attrs)) ds
     ∧ session_tasks s' = Some ds)
  ∨ (¬ complete ds ∧
     ∃ (k : string) (s' : State),
       TaskManager.__init__ s = (Raise (KeyError k), s')
       ∧ k ∈ data_attrs
       ∧ self_tasks s' = [] ∧ session_tasks s' = Some ds).
Proof.
  intros Hs. rewrite construct_run, Hs.
  destruct (load_outcome ds (put_self_tasks [] s))
    as [(Hds & ts & s' & -> & Hmap & _ & Hself & Hsess)
       |(Hds & k & s' & -> & Hk & Hself & Hsess)].
  - left. split; [done|]. eexists. split; [reflexivity|].
    cbn [put_self_tasks self_tasks session_tasks]. split; [done|].
    by rewrite Hsess.
  - right. split; [done|]. exists k, s'. split; [reflexivity|].
    split; [done|]. split; [by rewrite Hself|by rewrite Hsess].
Qed.

Lemma construct_outcome_witness :
  ∃ (k : string) (s' : State),
    TaskManager.__init__
      (mkState [] (Some [{["title" := VStr "a"]}]) microseconds 0)
    = (Raise (KeyError k), s')
    ∧ self_tasks s' = [].
Proof.
  destruct (construct_outcome [{["title" := VStr "a"]}]
              (mkState [] (Some [{["title" := VStr "a"]}]) microseconds 0) eq_refl)
    as [(Hall & _)|(_ & k & s' & Hrun & _ & Hself & _)].
  - exfalso. apply Forall_cons_1 in Hall as [Hd _].
    apply Forall_cons_1 in Hd as [[v Hv] _]. vm_compute in Hv. discriminate Hv.
  - exists k, s'. by split.
Defined.

(** ** Calls that raise *)





(** ** Sessions in which no call raises *)

Lemma refresh_serializable (kwargs : list (string * value)) (s : State) (t : Task) :
  "to_dict" ∉ kwargs.*1 → serializable t → serializable (refresh kwargs s t).
Proof.
  intros Hkw Ht. unfold serializable, refresh.
  change (shadowed (set_updated_at ?v ?u) !! "to_dict") with (getattr u "to_dict").
  rewrite getattr_apply_kwargs, assigned_None by done. exact Ht.
Qed.

Lemma settled_step (c : call) (s : State) :
  settled s → safe c →
  ∃ s' : State,
    exec c s = (Ok tt, s') ∧ settled s' ∧ self_tasks s' = effect c s.
Proof.
  intros [Hmir Hser] Hc. unfold settled, mirrored.
  destruct c as [|ttl descr|i|i kwargs|i|f|]; cbn [exec effect].
  - unfold mirrored in Hmir. destruct (session_tasks s) as [ds|] eqn:Hs.
    + cbn in Hmir. subst ds. rewrite (construct_from_snapshot (self_tasks s)) by done.
      eexists. split; [reflexivity|].
      cbn [put_self_tasks ticks self_tasks session_tasks]. rewrite Hs.
      split; [split|reflexivity].
      * cbn. by rewrite map_map.
      * apply Forall_fmap, Forall_true. intros t. reflexivity.
    + cbn in Hmir. symmetry in Hmir. apply map_eq_nil in Hmir.
      rewrite construct_without_snapshot by done.
      eexists. split; [reflexivity|].
      cbn [put_self_tasks put_session_tasks self_tasks session_tasks].
      rewrite Hmir. by repeat split.
  - rewrite run_bind, add_task_run, finish_ok.
    2:{ cbn [put_self_tasks self_tasks]. apply Forall_app. split; [done|].
        by repeat constructor. }
    eexists. split; [reflexivity|].
    cbn [put_self_tasks put_session_tasks self_tasks session_tasks].
    split; [split; [reflexivity|]|reflexivity].
    apply Forall_app. split; [done|]. by repeat constructor.
  - exists s. by repeat split.
  - destruct Hc as (Hto & Hgentle & Hbind). rewrite run_bind, update_task_run by done.
    destruct (scan i (self_tasks s)) as [[k t]|]; [|exists s; by repeat split].
    assert (Forall serializable (alter (refresh kwargs s) k (self_tasks s))) as Hser'.
    { apply Forall_alter; [done|]. intros u _ Hu. by apply refresh_serializable. }
    rewrite finish_ok by done. eexists. split; [reflexivity|].
    cbn [put_self_tasks put_session_tasks self_tasks session_tasks]. by repeat split.
  - rewrite run_bind, delete_task_run.
    destruct (scan i (self_tasks s)) as [[k t]|]; [|exists s; by repeat split].
    rewrite finish_ok by (by apply Forall_delete). eexists. split; [reflexivity|].
    cbn [put_self_tasks put_session_tasks self_tasks session_tasks].
    split; [split; [reflexivity|by apply Forall_delete]|reflexivity].
  - exists s. by destruct f as [[|]|].
  - exists s. by repeat split.
Qed.

Lemma reachable_settled (s : State) : reachable safe s → settled s.
Proof.
  induction 1 as [clk n|s s' c r _ IH Hc Hrun].
  - split; [reflexivity|constructor].
  - destruct (settled_step c s IH Hc) as (s'' & Hrun' & Hs'' & _). congruence.
Qed.

(** X8. In a session in which no update passes the name [to_dict], the
    name of a parameter ([self], [task_id]) or one of the names
    [__class__], [__dict__] and [__weakref__], no call of the interface
    ever raises: in every reachable state every such call returns.  In
    these states the snapshot holds the serialized collection, and every
    task can be serialized. *)
Theorem safe_sessions_never_raise (s : State) (c : call) :
  reachable safe s → safe c →
  (∃ s' : State, exec c s = (Ok tt, s'))
  ∧ default [] (session_tasks s) = map Task.to_dict (self_tasks s)
  ∧ Forall serializable (self_tasks s).
Proof.
  intros Hs Hc. pose proof (reachable_settled s Hs) as Hset.
  destruct (settled_step c s Hset Hc) as (s' & Hrun & _).
  split; [by exists s'|]. exact Hset.
Qed.

Lemma safe_sessions_never_raise_witness :
  ∃ s' : State, exec (Delete (VInt 1)) two_tasks = (Ok tt, s').
Proof.
  refine (proj1 (safe_sessions_never_raise two_tasks (Delete (VInt 1)) _ _)).
  - apply reachable_after; [apply reach_new|]. by repeat constructor.
  - exact I.
Defined.

(** ** Ids in sessions without deletions *)

Lemma first_ids_S (n : nat) :
  first_ids (S n) = (first_ids n ++ [VInt (Z.of_nat n + 1)])%list.
Proof.
  unfold first_ids. rewrite seq_S, fmap_app. cbn. do 3 f_equal. lia.
Qed.

Lemma first_ids_NoDup (n : nat) : NoDup (first_ids n).
Proof.
  unfold first_ids. apply NoDup_fmap_2; [|apply NoDup_seq].
  intros a b [= H]. lia.
Qed.

Lemma refresh_keeps_id (kwargs : list (string * value)) (s : State) (t : Task) :
  "id" ∉ kwargs.*1 → id (refresh kwargs s t) = id t.
Proof.
  intros Hkw. pose proof (getattr_apply_kwargs kwargs t "id") as Hget.
  rewrite assigned_None in Hget by done. by injection Hget.
Qed.

Lemma effect_ids (c : call) (s : State) :
  keeps_ids c → mirrored s →
  id <$> self_tasks s = first_ids (length (self_tasks s)) →
  id <$> effect c s = first_ids (length (effect c s)).
Proof.
  intros Hc Hmir Hids.
  destruct c as [|ttl descr|i|i kwargs|i|f|]; cbn [effect]; try done.
  - rewrite length_map, <- Hids, <- list_fmap_compose. reflexivity.
  - rewrite fmap_app, length_app, Hids. cbn [length fmap list_fmap new_task id].
    rewrite Nat.add_1_r, first_ids_S. do 4 f_equal.
    rewrite Hmir. by rewrite length_map.
  - destruct Hc as (_ & Hid & _).
    destruct (scan i (self_tasks s)) as [[k t]|]; [|done].
    rewrite length_alter, <- Hids. apply list_eq. intros j.
    rewrite !list_lookup_fmap, list_lookup_alter.
    destruct (decide (k = j)) as [->|]; [|done].
    destruct (self_tasks s !! j) as [u|]; [|done]. cbn [fmap option_fmap option_map].
    f_equal. by apply (refresh_keeps_id kwargs s u).
Qed.

Lemma keeps_ids_safe (c : call) (s : State) :
  keeps_ids c → safe c ∨ ∃ e : exn, exec c s = (Raise e, s).
Proof.
  destruct c as [|ttl descr|i|i kwargs|i|f|]; cbn [keeps_ids safe]; try tauto.
  intros (Hto & _ & Hgentle).
  destruct (decide (bindable kwargs)) as [Hbind|Hbind]; [by left|].
  right. eexists. cbn [exec]. by rewrite run_bind, update_task_clash.
Qed.

(** X9. In a session without deletions whose updates pass neither [id]
    nor [to_dict] nor one of the names [__class__], [__dict__] and
    [__weakref__], the ids of the collection are [1], [2], ..., [n] in
    the order of the tasks, in every reachable state; in particular they
    are pairwise different. *)
Theorem ids_count_up_without_delete (s : State) :
  reachable keeps_ids s →
  id <$> self_tasks s = first_ids (length (self_tasks s))
  ∧ NoDup (id <$> self_tasks s).
Proof.
  intros Hs.
  assert (settled s ∧ id <$> self_tasks s = first_ids (length (self_tasks s)))
    as [_ Hids].
  { induction Hs as [clk n|s s' c r _ [Hset Hids] Hc Hrun].
    - split; [split; [reflexivity|constructor]|reflexivity].
    - destruct (keeps_ids_safe c s Hc) as [Hsafe|[e Hraise]];
        [|by assert (s' = s) as -> by congruence].
      destruct (settled_step c s Hset Hsafe) as (s'' & Hrun' & Hset' & Heff).
      assert (s' = s'') as -> by congruence.
      split; [done|]. rewrite Heff. apply effect_ids; [done|apply Hset|done]. }
  split; [done|]. rewrite Hids. apply first_ids_NoDup.
Qed.

Lemma ids_count_up_without_delete_witness :
  id <$> self_tasks two_tasks = [VInt 1; VInt 2].
Proof.
  refine (proj1 (ids_count_up_without_delete two_tasks _)).
  apply reachable_after; [apply reach_new|]. by repeat constructor.
Defined.

(** ** Timestamps cannot be set from outside *)




(** ** The checkbox of a task *)

Lemma reachable_weaken (allowed allowed' : call → Prop) (s : State) :
  (∀ c : call, allowed c → allowed' c) →
  reachable allowed s → reachable allowed' s.
Proof.
  intros Himp. induction 1 as [clk n|s s' c r _ IH Hc Hrun].
  - apply reach_new.
  - eapply reach_step; [exact IH|by apply Himp|exact Hrun].
Qed.

Lemma page_call_disciplined (c : call) : page_call c → disciplined c.
Proof.
  destruct c as [| | |i kwargs| | |]; cbn; try done.
  intros [task ->]. unfold checkbox_kwargs. constructor; [|constructor].
  split; [discriminate|]. split; [|reflexivity].
  intros _. cbn. destruct (negb _); auto.
Qed.

(** X11. The page keeps the invariants of the data model apart from the
    uniqueness of ids: in a session whose updates are those of the
    checkboxes, every task of every reachable state has the status
    pending or completed, and its [updated_at] is not before its
    [created_at] when the readings of the clock never decrease. *)
Theorem page_sessions_keep_invariants (s : State) :
  reachable page_call s → monotone (clock s) →
  Forall (λ t, status_ok t ∧ timestamps_ok t) (self_tasks s).
Proof.
  intros Hs Hmono.
  pose proof (reachable_weaken _ _ s page_call_disciplined Hs) as Hd.
  eapply Forall_impl; [exact (reachable_well_kept s Hd)|].
  intros t (Hst & i & j & Hij & _ & Hc & Hu). split; [exact Hst|].
  unfold timestamps_ok. rewrite Hc, Hu. cbn. f_equal. by apply Hmono.
Qed.

Lemma page_sessions_keep_invariants_witness :
  Forall (λ t, status_ok t ∧ timestamps_ok t)
    (self_tasks
       (after [Construct; Add (VStr "a") (VStr "");
               Update (VInt 1) (checkbox_kwargs (new_task (VStr "a") (VStr "") still_session))]
              still_session)).
Proof.
  apply page_sessions_keep_invariants.
  - apply reachable_after; [apply reach_new|].
    repeat (apply Forall_cons; split; [exact I|]).
    apply Forall_cons; split; [|constructor]. eexists. reflexivity.
  - intros i j _. reflexivity.
Defined.

Lemma hasattr_data (t : Task) (k : string) : k ∈ data_attrs → hasattr t k = true.
Proof. intros Hk. unfold hasattr. by rewrite (bool_decide_eq_true_2 (k ∈ data_attrs)). Qed.

Lemma checkbox_bindable (t : Task) : bindable (checkbox_kwargs t).
Proof.
  constructor; [|constructor]. cbn. unfold parameters.
  intros Hin. repeat (apply elem_of_cons in Hin as [Hin|Hin]; [discriminate Hin|]).
  by apply elem_of_nil in Hin.
Qed.

Lemma checkbox_gentle (t : Task) : gentle_kwargs (checkbox_kwargs t).
Proof. by repeat constructor. Qed.

(** The status that the checkbox of a task assigns. *)
Lemma checkbox_run (t : Task) (i : nat) (s : State) :
  Forall serializable (self_tasks s) → scan (id t) (self_tasks s) = Some (i, t) →
  ∃ (t' : Task) (s' : State),
    checkbox_on_change t s = (Ok true, s')
    ∧ self_tasks s' = <[i := t']> (self_tasks s)
    ∧ Forall serializable (self_tasks s')
    ∧ scan (id t') (self_tasks s') = Some (i, t')
    ∧ status t' = (if bool_decide (status t = VStr "completed")
                   then VStr "pending" else VStr "completed")
    ∧ id t' = id t ∧ title t' = title t ∧ description t' = description t
    ∧ created_at t' = created_at t
    ∧ updated_at t' = VStr (clock s (now_calls s)).
Proof.
  intros Hser Hscan. pose proof Hscan as (Hi & _)%scan_Some.
  unfold checkbox_on_change.
  rewrite update_task_run, Hscan by (apply checkbox_bindable || apply checkbox_gentle).
  assert (Forall serializable (alter (refresh (checkbox_kwargs t) s) i (self_tasks s)))
    as Hser'.
  { apply Forall_alter; [done|]. intros u _ Hu. apply refresh_serializable; [|done].
    intros Hin. apply list_elem_of_singleton in Hin. discriminate Hin. }
  rewrite finish_ok by done.
  cbn [put_self_tasks self_tasks]. rewrite (alter_insert _ _ t) by done.
  eexists _, _. split; [reflexivity|].
  cbn [put_session_tasks put_self_tasks self_tasks].
  split; [reflexivity|]. rewrite <- (alter_insert _ _ t) by done.
  split; [exact Hser'|]. rewrite (alter_insert _ _ t) by done.
  split; [by eapply scan_insert|].
  unfold refresh, checkbox_kwargs, TaskManager.apply_kwargs. cbn [foldl fst snd].
  rewrite (hasattr_data t "status") by (unfold data_attrs; set_solver).
  unfold py_eq. destruct (bool_decide (status t = VStr "completed")); by repeat split.
Qed.

(** X12. Ticking the checkbox of a task that is the first one with its
    id sets the status of that task to pending when it was completed and
    to completed otherwise; [updated_at] becomes a new reading of the
    clock, and id, title, description and [created_at] stay.  Ticking
    the checkbox of the resulting task once more gives a task with the
    status the first one had, if that was pending or completed. *)
Theorem checkbox_toggles_status (t : Task) (i : nat) (s : State) :
  Forall serializable (self_tasks s) → scan (id t) (self_tasks s) = Some (i, t) →
  ∃ (t' : Task) (s' : State),
    checkbox_on_change t s = (Ok true, s')
    ∧ self_tasks s' = <[i := t']> (self_tasks s)
    ∧ status t' = (if bool_decide (status t = VStr "completed")
                   then VStr "pending" else VStr "completed")
    ∧ id t' = id t ∧ title t' = title t ∧ description t' = description t
    ∧ created_at t' = created_at t
    ∧ updated_at t' = VStr (clock s (now_calls s))
    ∧ (status_ok t →
       ∃ (t'' : Task) (s'' : State),
         checkbox_on_change t' s' = (Ok true, s'')
         ∧ self_tasks s'' = <[i := t'']> (self_tasks s)
         ∧ status t'' = status t
         ∧ id t'' = id t ∧ title t'' = title t ∧ description t'' = description t
         ∧ created_at t'' = created_at t).
Proof.
  intros Hser Hscan.
  destruct (checkbox_run t i s Hser Hscan)
    as (t' & s' & Hrun & Hts & Hser' & Hscan' & Hst & Hid & Htt & Hd & Hc & Hu).
  exists t', s'. repeat (split; [done|]).
  intros Hok.
  destruct (checkbox_run t' i s' Hser' Hscan')
    as (t'' & s'' & Hrun' & Hts' & _ & _ & Hst' & Hid' & Htt' & Hd' & Hc' & _).
  exists t'', s''. split; [done|].
  split; [by rewrite Hts', Hts, list_insert_insert_eq|].
  split; [|by rewrite Hid', Htt', Hd', Hc'].
  rewrite Hst', Hst. destruct Hok as [Hp|Hco].
  - rewrite Hp. reflexivity.
  - rewrite Hco. reflexivity.
Qed.

Lemma checkbox_toggles_status_witness :
  ∃ (t t' : Task) (s' : State),
    self_tasks two_tasks !! 1%nat = Some t
    ∧ checkbox_on_change t two_tasks = (Ok true, s')
    ∧ self_tasks s' !! 1%nat = Some t'
    ∧ status t' = VStr "completed".
Proof.
  destruct (self_tasks two_tasks !! 1%nat) as [t|] eqn:Ht;
    [|vm_compute in Ht; discriminate Ht].
  destruct (checkbox_toggles_status t 1 two_tasks)
    as (t' & s' & Hrun & Hts & Hst & _).
  - vm_compute. repeat constructor.
  - vm_compute in Ht. injection Ht as <-. vm_compute. reflexivity.
  - exists t, t', s'. split; [reflexivity|]. split; [exact Hrun|].
    split; [rewrite Hts; vm_compute; reflexivity|].
    rewrite Hst. vm_compute in Ht. injection Ht as <-. reflexivity.
Defined.

(** ** Adding, then looking up or deleting *)

Lemma add_task_settled (ttl descr : value) (s : State) :
  settled s →
  let t := new_task ttl descr s in
  TaskManager.add_task ttl descr s
  = (Ok t, put_session_tasks (map Task.to_dict (self_tasks s ++ [t]))
             (put_self_tasks (self_tasks s ++ [t]) (tick (tick s))))
  ∧ id t = VInt (Z.of_nat (length (self_tasks s)) + 1).
Proof.
  intros [Hmir Hser] t. rewrite add_task_run, finish_ok.
  2:{ cbn [put_self_tasks self_tasks]. apply Forall_app. split; [done|].
      by repeat constructor. }
  split; [reflexivity|]. unfold t, new_task. cbn [id].
  rewrite Hmir. by rewrite length_map.
Qed.






(** ** The "Add Task" button with a title *)

(** X15. With a title that is not empty, in a state whose snapshot
    mirrors the collection, the "Add Task" handler appends one pending
    task with the title and the description of the widgets, writes the
    snapshot, and reports the success with the title in the message. *)
Theorem titled_task_added (ttl descr : string) (s : State) :
  ttl ≠ "" → settled s →
  ∃ (t : Task) (s' : State),
    add_task_button ttl descr s
    = (Ok (st_success ("Task '" +:+ ttl +:+ "' added!")), s')
    ∧ self_tasks s' = (self_tasks s ++ [t])%list
    ∧ title t = VStr ttl ∧ description t = VStr descr
    ∧ status t = VStr "pending"
    ∧ session_tasks s' = Some (map Task.to_dict (self_tasks s')).
Proof.
  intros Hne Hset. unfold add_task_button. rewrite bool_decide_eq_true_2 by done.
  destruct (add_task_settled (VStr ttl) (VStr descr) s Hset) as [Hrun _].
  rewrite run_bind, Hrun. eexists _, _. split; [reflexivity|].
  by repeat split.
Qed.

Lemma titled_task_added_witness :
  ∃ s' : State,
    add_task_button "Buy milk" "" (after [Construct] new_session)
    = (Ok (st_success "Task 'Buy milk' added!"), s').
Proof.
  destruct (titled_task_added "Buy milk" "" (after [Construct] new_session))
    as (t & s' & Hrun & _).
  - discriminate.
  - split; [reflexivity|constructor].
  - exists s'. exact Hrun.
Defined.

(** ** The rows of the export *)

(** X16. In a state whose snapshot mirrors the collection, the rows that
    the export hands to the data frame are the records of the snapshot,
    one for each task of the collection in its order; computing them
    changes nothing. *)
Theorem export_rows_are_the_snapshot (s : State) :
  settled s →
  ∃ rows : list (gmap string value),
    export_rows s = (Ok rows, s)
    ∧ rows = default [] (session_tasks s)
    ∧ rows = map Task.to_dict (self_tasks s)
    ∧ length rows = length (self_tasks s).
Proof.
  intros [Hmir Hser]. exists (map Task.to_dict (self_tasks s)).
  split; [|split; [by rewrite Hmir|split; [done|by rewrite length_map]]].
  unfold export_rows. cbn [TaskManager.get_all_tasks]. run.
  by apply comprehension_to_dict_ok.
Qed.

Lemma export_rows_are_the_snapshot_witness :
  ∃ rows : list (gmap string value),
    export_rows two_tasks = (Ok rows, two_tasks) ∧ length rows = 2%nat.
Proof.
  destruct (export_rows_are_the_snapshot two_tasks) as (rows & Hrun & _ & _ & Hlen).
  - split; [reflexivity|]. vm_compute. repeat constructor.
  - exists rows. split; [exact Hrun|exact Hlen].
Defined.

(** ** Names that a task does not have *)




(** ** Statistics after adding a task *)




(** ** Sessions with pairwise different ids: examples *)

Lemma get_task_by_id_unique_witness :
  ∃ t : Task,
    self_tasks two_tasks !! 1%nat = Some t
    ∧ TaskManager.get_task_by_id (id t) two_tasks = (Ok (Some t), two_tasks).
Proof.
  destruct (self_tasks two_tasks !! 1%nat) as [t|] eqn:Ht;
    [|vm_compute in Ht; discriminate Ht].
  exists t. split; [reflexivity|].
  apply get_task_by_id_unique.
  - vm_compute. apply NoDup_cons_2; [|apply NoDup_singleton].
    intros Hin. apply list_elem_of_singleton in Hin. discriminate Hin.
  - by eapply list_elem_of_lookup_2.
Defined.

Lemma delete_then_get_unique_witness :
  TaskManager.get_task_by_id (VInt 1) (exec (Delete (VInt 1)) two_tasks).2
  = (Ok None, (exec (Delete (VInt 1)) two_tasks).2).
Proof.
  apply (delete_then_get_unique (VInt 1) two_tasks).
  - vm_compute. apply NoDup_cons_2; [|apply NoDup_singleton].
    intros Hin. apply list_elem_of_singleton in Hin. discriminate Hin.
  - vm_compute. reflexivity.
Defined.

Lemma delete_task_first_match_witness :
  ∃ s' : State,
    TaskManager.delete_task (VInt 1) two_tasks = (Ok true, s')
    ∧ self_tasks s' = delete 0%nat (self_tasks two_tasks).
Proof.
  pose proof (delete_task_first_match (VInt 1) two_tasks) as H.
  destruct (scan (VInt 1) (self_tasks two_tasks)) as [[i t]|] eqn:Hscan in H;
    [|vm_compute in Hscan; discriminate Hscan].
  destruct H as (s' & Hrun & Hts & _).
  - vm_compute. repeat constructor.
  - exists s'. split; [exact Hrun|]. rewrite Hts.
    vm_compute in Hscan. by injection Hscan as <- _.
Defined.
